(** * SLCSP: second lowest cost silver plan per zip code

    A shallow embedding of [find_slcsp] and [output_slcsp] of [main.py].
    The pandas data frames are lists of records, one record type per set of
    columns the source has at that point; row order and duplicate rows are
    kept, since [drop_duplicates], [nsmallest] and the left merge depend on
    them.

    Conventions.
    - [zipcode] is the integer column [read_csv] infers from the files.
    - [rate] is a finite decimal amount; it is represented by the number of
      hundredths (200.00 is [20000]), which keeps equality and order.  The
      float [NaN] that the source writes for "no rate" is [None].
    - The two CSV readers and the final [print] are outside the embedding:
      the functions take the parsed tables and return the table printed.
    - The frame operations follow pandas 1.x, the line on which the
      positional [axis] argument of line 54 is accepted.  An exception that
      the source lets escape is a [Raises] result. *)

From Stdlib Require Import ZArith List Ascii String Bool Lia Permutation Sorted.
From Stdlib Require Import DecimalString DecimalZ.
Import ListNotations.

Local Open Scope string_scope.
Local Open Scope list_scope.
Local Open Scope Z_scope.

(** ** Tables read from the files *)

(** A row of [zips.csv]. *)
Record ZipRow := mkZipRow {
  zr_zipcode : Z;
  zr_state : string;
  zr_county_code : Z;
  zr_name : string;
  zr_rate_area : Z
}.

(** A row of [plans.csv]. *)
Record PlanRow := mkPlanRow {
  pr_plan_id : string;
  pr_state : string;
  pr_metal_level : string;
  pr_rate : Z;
  pr_rate_area : Z
}.

(** A row of the file of requested zip codes; the incoming [rate] column is
    blank or holds any number. *)
Record TargetRow := mkTargetRow {
  tr_zipcode : Z;
  tr_rate : option Z
}.

(** ** Intermediate frames of [find_slcsp] *)

(** [zips_df] once [rate_area] is the combined key and [state] is dropped. *)
Record ZipKeyed := mkZipKeyed {
  zk_zipcode : Z;
  zk_county_code : Z;
  zk_name : string;
  zk_rate_area : string
}.

(** [plans_df] once [rate_area] is the combined key and [state] is dropped. *)
Record PlanKeyed := mkPlanKeyed {
  pk_plan_id : string;
  pk_metal_level : string;
  pk_rate : Z;
  pk_rate_area : string
}.

(** A row of [zip_plans_df], the merge of the two. *)
Record ZipPlan := mkZipPlan {
  zp_zipcode : Z;
  zp_county_code : Z;
  zp_name : string;
  zp_rate_area : string;
  zp_plan_id : string;
  zp_metal_level : string;
  zp_rate : Z
}.

(** A row of [silver_rates_df] after the four columns are dropped. *)
Record SilverRate := mkSilverRate {
  sr_zipcode : Z;
  sr_rate_area : string;
  sr_rate : Z
}.

(** A row of [silver_rates_df] with the two [nunique] columns. *)
Record Counted := mkCounted {
  ct_zipcode : Z;
  ct_rate_area : string;
  ct_rate : Z;
  unique_area_count : nat;
  unique_rate_count : nat
}.

(** A row of the frame [find_slcsp] returns and of the printed frame. *)
Record SlcspRow := mkSlcspRow {
  zipcode : Z;
  rate : option Z
}.

(** The exceptions the source lets escape, and the outcome of a call. *)
Inductive error : Type :=
| KeyError (label : string).

Inductive result (A : Type) : Type :=
| Returns (a : A)
| Raises (e : error).

Arguments Returns {A} a.
Arguments Raises {A} e.

(** ** Generic frame operations *)

(** [astype(str)] on an integer column. *)
Definition str (n : Z) : string := NilZero.string_of_int (Z.to_int n).

(** [state + ' ' + rate_area.astype(str)]. *)
Definition combine_rate_area (state : string) (area : Z) : string :=
  (state ++ " " ++ str area)%string.

(** [DataFrame.drop_duplicates(subset=...)], which keeps the first row of
    every class of [same]. *)
Fixpoint drop_duplicates {A : Type} (same : A -> A -> bool) (l : list A) : list A :=
  match l with
  | [] => []
  | x :: t => x :: filter (fun y => negb (same x y)) (drop_duplicates same t)
  end.

(** [drop_duplicates(subset=..., keep='last')]. *)
Fixpoint drop_duplicates_last {A : Type} (same : A -> A -> bool) (l : list A) : list A :=
  match l with
  | [] => []
  | x :: t =>
      if existsb (same x) t then drop_duplicates_last same t
      else x :: drop_duplicates_last same t
  end.

(** [Series.nunique()]. *)
Definition nunique {A : Type} (eqb : A -> A -> bool) (l : list A) : nat :=
  List.length (drop_duplicates eqb l).

(** Ascending sort of an integer column. *)
Fixpoint insert_sorted (x : Z) (l : list Z) : list Z :=
  match l with
  | [] => [x]
  | y :: t => if x <=? y then x :: l else y :: insert_sorted x t
  end.

Fixpoint sort_values (l : list Z) : list Z :=
  match l with
  | [] => []
  | x :: t => insert_sorted x (sort_values t)
  end.

(** [Series.nsmallest(n)]: the [n] smallest values, in ascending order. *)
Definition nsmallest (n : nat) (l : list Z) : list Z := firstn n (sort_values l).

(** ** [find_slcsp] *)

Definition key_zips (zips_df : list ZipRow) : list ZipKeyed :=
  map (fun z => mkZipKeyed (zr_zipcode z) (zr_county_code z) (zr_name z)
                  (combine_rate_area (zr_state z) (zr_rate_area z))) zips_df.

Definition key_plans (plans_df : list PlanRow) : list PlanKeyed :=
  map (fun p => mkPlanKeyed (pr_plan_id p) (pr_metal_level p) (pr_rate p)
                  (combine_rate_area (pr_state p) (pr_rate_area p))) plans_df.

Definition join_row (z : ZipKeyed) (p : PlanKeyed) : ZipPlan :=
  mkZipPlan (zk_zipcode z) (zk_county_code z) (zk_name z) (zk_rate_area z)
            (pk_plan_id p) (pk_metal_level p) (pk_rate p).

(** [pd.merge(zips_df, plans_df, on='rate_area')]: the inner join.  The
    rows come grouped by key, the keys in the order of their first row in the
    left frame; within a key, every left row in order with the right rows of
    that key in order. *)
Definition merge_on_rate_area (zs : list ZipKeyed) (ps : list PlanKeyed) : list ZipPlan :=
  flat_map (fun k =>
    flat_map (fun z =>
      map (join_row z) (filter (fun p => String.eqb k (pk_rate_area p)) ps))
      (filter (fun z => String.eqb (zk_rate_area z) k) zs))
    (drop_duplicates String.eqb (map zk_rate_area zs)).

Definition is_silver (metal_level : string) : bool := String.eqb metal_level "Silver".

(** [zip_plans_df[zip_plans_df['metal_level'] == 'Silver']]. *)
Definition silver_only (l : list ZipPlan) : list ZipPlan :=
  filter (fun r => is_silver (zp_metal_level r)) l.

(** [.drop(['name', 'plan_id', 'metal_level', 'county_code'], axis=1)]. *)
Definition drop_plan_columns (l : list ZipPlan) : list SilverRate :=
  map (fun r => mkSilverRate (zp_zipcode r) (zp_rate_area r) (zp_rate r)) l.

Definition same_triple (a b : SilverRate) : bool :=
  (sr_zipcode a =? sr_zipcode b) && String.eqb (sr_rate_area a) (sr_rate_area b)
  && (sr_rate a =? sr_rate b).

(** [silver_rates_df] up to and including the [drop_duplicates] of line 40:
    the deduplicated (zip code, rating area, rate) relation. *)
Definition silver_rates (zips_df : list ZipRow) (plans_df : list PlanRow) : list SilverRate :=
  drop_duplicates same_triple
    (drop_plan_columns
       (silver_only (merge_on_rate_area (key_zips zips_df) (key_plans plans_df)))).

(** The rows of one [groupby('zipcode')] group. *)
Definition group_of (k : Z) (rows : list SilverRate) : list SilverRate :=
  filter (fun r => sr_zipcode r =? k) rows.

(** [groupby('zipcode')['rate_area'].transform('nunique')] at zip code [k]. *)
Definition area_count (k : Z) (rows : list SilverRate) : nat :=
  nunique String.eqb (map sr_rate_area (group_of k rows)).

(** [groupby('zipcode')['rate'].transform('nunique')] at zip code [k]. *)
Definition rate_count (k : Z) (rows : list SilverRate) : nat :=
  nunique Z.eqb (map sr_rate (group_of k rows)).

(** [silver_rates_df] with the two count columns of lines 41 and 42. *)
Definition with_counts (rows : list SilverRate) : list Counted :=
  map (fun r => mkCounted (sr_zipcode r) (sr_rate_area r) (sr_rate r)
                  (area_count (sr_zipcode r) rows)
                  (rate_count (sr_zipcode r) rows)) rows.

(** The mask of line 46: more than one area, or one rate only. *)
Definition is_no_lowest (r : Counted) : bool :=
  (1 <? unique_area_count r)%nat || (unique_rate_count r =? 1)%nat.

(** The mask of line 52: one area and more than one rate. *)
Definition is_second_lowest (r : Counted) : bool :=
  (unique_area_count r =? 1)%nat && (1 <? unique_rate_count r)%nat.

(** [no_lowest_df], lines 46 to 49 (the count columns go at line 56). *)
Definition no_lowest_df (counted : list Counted) : list SlcspRow :=
  map (fun r => mkSlcspRow (ct_zipcode r) None)
      (drop_duplicates (fun a b => ct_zipcode a =? ct_zipcode b)
         (filter is_no_lowest counted)).

(** The keys of [groupby('zipcode')], which sorts them. *)
Definition group_keys (l : list Counted) : list Z :=
  sort_values (drop_duplicates Z.eqb (map ct_zipcode l)).

(** [groupby('zipcode')['rate'].nsmallest(2)] followed by [reset_index()] and
    the drop of [level_1]: per group, in key order, its two smallest rates. *)
Definition groupby_nsmallest (l : list Counted) : list (Z * Z) :=
  flat_map (fun k =>
    map (fun r => (k, r))
        (nsmallest 2 (map ct_rate (filter (fun r => ct_zipcode r =? k) l))))
    (group_keys l).

(** The rows of [second_lowest_df] when lines 52 to 54 go through: of the
    two smallest rates of each group the last one is kept. *)
Definition second_lowest_rows (counted : list Counted) : list SlcspRow :=
  map (fun kr => mkSlcspRow (fst kr) (Some (snd kr)))
      (drop_duplicates_last (fun a b => fst a =? fst b)
         (groupby_nsmallest (filter is_second_lowest counted))).

(** [second_lowest_df] of lines 52 to 54.  When the mask of line 52 selects
    no row, [nsmallest] gives an empty series whose index has the single
    level [zipcode]; [reset_index()] then makes no [level_1] column and
    [.drop('level_1', 1)] raises [KeyError]. *)
Definition second_lowest_df (counted : list Counted) : result (list SlcspRow) :=
  match filter is_second_lowest counted with
  | [] => Raises (KeyError "level_1")
  | _ :: _ => Returns (second_lowest_rows counted)
  end.

(** [find_slcsp], on the parsed tables.  [no_lowest_df] is built first
    (lines 46 to 49), then [second_lowest_df], whose exception escapes. *)
Definition find_slcsp (zips_df : list ZipRow) (plans_df : list PlanRow)
    : result (list SlcspRow) :=
  let counted := with_counts (silver_rates zips_df plans_df) in
  let no_lowest := no_lowest_df counted in
  match second_lowest_df counted with
  | Raises e => Raises e
  | Returns second_lowest => Returns (second_lowest ++ no_lowest)
  end.

(** ** [output_slcsp] *)

(** [pd.merge(slcsp_df, second_lowest_data, on='zipcode', how='left')], where
    [slcsp_df] has the single column [zipcode]: every left row in order, once
    per matching right row, or once with a missing rate when none matches. *)
Definition merge_left (slcsp_df : list Z) (right : list SlcspRow) : list SlcspRow :=
  flat_map (fun z =>
    match filter (fun r => zipcode r =? z) right with
    | [] => [mkSlcspRow z None]
    | ms => map (fun m => mkSlcspRow z (rate m)) ms
    end) slcsp_df.

(** [output_slcsp]: the frame that is printed, or the exception of
    [find_slcsp], which is called first (line 70) and is not caught. *)
Definition output_slcsp (target : list TargetRow) (zips_df : list ZipRow)
    (plans_df : list PlanRow) : result (list SlcspRow) :=
  match find_slcsp zips_df plans_df with
  | Raises e => Raises e
  | Returns second_lowest_data =>
      let slcsp_df := map tr_zipcode target in
      Returns (merge_left slcsp_df second_lowest_data)
  end.

(** The scenarios of the test data. *)
Definition zips_ex : list ZipRow :=
  [ mkZipRow 11111 "NY" 36001 "Albany" 1;
    mkZipRow 22222 "NY" 36001 "Albany" 1;
    mkZipRow 22222 "NY" 36003 "Bronx" 2;
    mkZipRow 33333 "CA" 6001 "Alameda" 5;
    mkZipRow 55555 "TX" 48001 "Anderson" 3 ].

Definition plans_ex : list PlanRow :=
  [ mkPlanRow "P1" "NY" "Silver" 20000 1;
    mkPlanRow "P2" "NY" "Silver" 15000 1;
    mkPlanRow "P3" "NY" "Silver" 15000 1;
    mkPlanRow "P4" "NY" "Gold" 10000 1;
    mkPlanRow "P5" "NY" "Silver" 17000 2;
    mkPlanRow "P6" "CA" "Silver" 18000 5;
    mkPlanRow "P7" "TX" "Gold" 30000 3 ].

Definition target_ex : list TargetRow :=
  [ mkTargetRow 44444 None; mkTargetRow 11111 (Some 1); mkTargetRow 22222 None;
    mkTargetRow 33333 None; mkTargetRow 55555 None; mkTargetRow 11111 None ].

(** The same requests with other incoming rates. *)
Definition target_ex' : list TargetRow :=
  [ mkTargetRow 44444 (Some 5); mkTargetRow 11111 None; mkTargetRow 22222 (Some 0);
    mkTargetRow 33333 (Some 18000); mkTargetRow 55555 None; mkTargetRow 11111 (Some 7) ].

(** The tables in another row order, with one more Silver plan of [NY 1] at
    200.00. *)
Definition zips_ex' : list ZipRow :=
  [ mkZipRow 22222 "NY" 36001 "Albany" 1;
    mkZipRow 11111 "NY" 36001 "Albany" 1;
    mkZipRow 22222 "NY" 36003 "Bronx" 2;
    mkZipRow 33333 "CA" 6001 "Alameda" 5;
    mkZipRow 55555 "TX" 48001 "Anderson" 3 ].

Definition plans_ex' : list PlanRow :=
  plans_ex ++ [ mkPlanRow "P8" "NY" "Silver" 20000 1 ].

(** The scenario of zip code 11111 alone: one area, rates 200.00, 150.00 and
    150.00 again. *)
Definition zips_11111 : list ZipRow := [ mkZipRow 11111 "NY" 36001 "Albany" 1 ].

Definition plans_11111 : list PlanRow :=
  [ mkPlanRow "P1" "NY" "Silver" 20000 1;
    mkPlanRow "P2" "NY" "Silver" 15000 1;
    mkPlanRow "P3" "NY" "Silver" 15000 1 ].

(** Tables without any zip code that has a second lowest rate: zip code
    33333 alone, with the one Silver plan of CA 5; zip code 22222 alone, in
    NY 1 and NY 2; zip code 55555 alone, whose area has a Gold plan only. *)
Definition zips_33333 : list ZipRow := [ mkZipRow 33333 "CA" 6001 "Alameda" 5 ].

Definition plans_33333 : list PlanRow := [ mkPlanRow "P6" "CA" "Silver" 18000 5 ].

Definition zips_22222 : list ZipRow :=
  [ mkZipRow 22222 "NY" 36001 "Albany" 1; mkZipRow 22222 "NY" 36003 "Bronx" 2 ].

Definition plans_22222 : list PlanRow :=
  [ mkPlanRow "P1" "NY" "Silver" 20000 1;
    mkPlanRow "P2" "NY" "Silver" 15000 1;
    mkPlanRow "P5" "NY" "Silver" 17000 2 ].

Definition zips_55555 : list ZipRow := [ mkZipRow 55555 "TX" 48001 "Anderson" 3 ].

Definition plans_55555 : list PlanRow := [ mkPlanRow "P7" "TX" "Gold" 30000 3 ].

(** ** Notions of the specification *)

(** The frame of line 55 when line 54 goes through. *)
Definition slcsp_frame (zips_df : list ZipRow) (plans_df : list PlanRow) : list SlcspRow :=
  second_lowest_rows (with_counts (silver_rates zips_df plans_df))
  ++ no_lowest_df (with_counts (silver_rates zips_df plans_df)).

(** The rates a zip code [k] reaches in the deduplicated relation. *)
Definition rates_of (k : Z) (rows : list SilverRate) : list Z :=
  map sr_rate (group_of k rows).

(** One distinct rating area and at least two distinct rates. *)
Definition determinable (k : Z) (rows : list SilverRate) : Prop :=
  area_count k rows = 1%nat /\ (2 <= rate_count k rows)%nat.

(** More than one rating area, or exactly one distinct rate. *)
Definition undetermined (k : Z) (rows : list SilverRate) : Prop :=
  (1 < area_count k rows)%nat \/ rate_count k rows = 1%nat.

(** [r] is the second-smallest element of the set of values in [rates]:
    exactly one value of the set, [m], lies strictly below it. *)
Definition second_smallest (rates : list Z) (r : Z) : Prop :=
  In r rates /\
  exists m, In m rates /\ m < r /\ forall x, In x rates -> x = m \/ r <= x.

(** The rate a frame keyed by zip code gives for [z]; missing when [z] has no
    row. *)
Definition selected_rate (z : Z) (frame : list SlcspRow) : option Z :=
  match find (fun r => zipcode r =? z) frame with
  | Some m => rate m
  | None => None
  end.

(** The candidate construction in the order the specification describes it:
    restrict the plans to Silver, then join on the rating-area key. *)
Definition silver_plans_spec (ps : list PlanKeyed) : list PlanKeyed :=
  filter (fun p => is_silver (pk_metal_level p)) ps.

Definition join_silver_spec (zs : list ZipKeyed) (ps : list PlanKeyed) : list ZipPlan :=
  merge_on_rate_area zs (silver_plans_spec ps).

(** [p] is a Silver plan of the same rating area at the same rate as [e]. *)
Definition same_area_rate (e p : PlanRow) : Prop :=
  is_silver (pr_metal_level p) = true /\
  combine_rate_area (pr_state p) (pr_rate_area p)
    = combine_rate_area (pr_state e) (pr_rate_area e) /\
  pr_rate p = pr_rate e.

(** [ps'] is [ps] with its rows in any order and with further plan rows
    added, each carrying a (rating area, rate) pair a Silver plan of [ps]
    already has. *)
Definition reordered_with_duplicates (ps ps' : list PlanRow) : Prop :=
  exists extra,
    Permutation (extra ++ ps) ps' /\
    forall e, In e extra -> exists p, In p ps /\ same_area_rate e p.

(** Two zip codes of the rating area NY 1. *)
Definition zips_same_area : list ZipRow :=
  [ mkZipRow 11111 "NY" 36001 "Albany" 1; mkZipRow 66666 "NY" 36005 "Kings" 1 ].

(** The tables of the scenarios with other county codes, names and plan
    identifiers. *)
Definition zips_ex_relabelled : list ZipRow :=
  map (fun z => mkZipRow (zr_zipcode z) (zr_state z) 0 "county" (zr_rate_area z)) zips_ex.

Definition plans_ex_relabelled : list PlanRow :=
  map (fun p => mkPlanRow "plan" (pr_state p) (pr_metal_level p) (pr_rate p)
                  (pr_rate_area p)) plans_ex.

(** The rating-area key of a zip row and of a plan row, lines 21 and 24. *)
Definition zip_area (z : ZipRow) : string :=
  combine_rate_area (zr_state z) (zr_rate_area z).

Definition plan_area (p : PlanRow) : string :=
  combine_rate_area (pr_state p) (pr_rate_area p).

(** The rates of the Silver plans of rating area [a]. *)
Definition area_silver_rates (a : string) (ps : list PlanRow) : list Z :=
  map pr_rate
    (filter (fun p => is_silver (pr_metal_level p) && String.eqb (plan_area p) a) ps).

(** Zip code [z] has a row in rating area [a], and [a] has a Silver plan. *)
Definition reaches_silver (zs : list ZipRow) (ps : list PlanRow) (z : Z) (a : string) : Prop :=
  exists zr p, In zr zs /\ zr_zipcode zr = z /\ zip_area zr = a /\
               In p ps /\ plan_area p = a /\ is_silver (pr_metal_level p) = true.

(** Zip code [z] reaches Silver plans in the rating area [a] and in no
    other, and the Silver plans of [a] have two different rates. *)
Definition has_second_lowest (zs : list ZipRow) (ps : list PlanRow) (z : Z) (a : string) : Prop :=
  reaches_silver zs ps z a /\
  (forall a', reaches_silver zs ps z a' -> a' = a) /\
  exists x y, In x (area_silver_rates a ps) /\ In y (area_silver_rates a ps) /\ x <> y.

(** The columns of the two tables that survive the drop of line 33. *)
Definition zip_columns_used (z : ZipRow) : Z * string * Z :=
  (zr_zipcode z, zr_state z, zr_rate_area z).

Definition plan_columns_used (p : PlanRow) : string * string * Z * Z :=
  (pr_state p, pr_metal_level p, pr_rate p, pr_rate_area p).

(** The Silver candidates, from the used columns alone. *)
Definition candidates_of_columns (zc : list (Z * string * Z))
    (pc : list (string * string * Z * Z)) : list SilverRate :=
  flat_map (fun k =>
    flat_map (fun z =>
      map (fun p => mkSilverRate (fst (fst z))
                      (combine_rate_area (snd (fst z)) (snd z)) (snd (fst p)))
          (filter (fun p =>
                     String.eqb k (combine_rate_area (fst (fst (fst p))) (snd p))
                     && is_silver (snd (fst (fst p)))) pc))
      (filter (fun z => String.eqb (combine_rate_area (snd (fst z)) (snd z)) k) zc))
    (drop_duplicates String.eqb
       (map (fun z => combine_rate_area (snd (fst z)) (snd z)) zc)).

(** A string holds the blank that [combine_rate_area] puts between the state
    and the area number. *)
Fixpoint has_space (s : string) : bool :=
  match s with
  | EmptyString => false
  | String c t => Ascii.eqb c " "%char || has_space t
  end.

(** ** Lemmas on the frame operations *)

Section DropDuplicates.
Context {A K : Type} (key : A -> K) (same : A -> A -> bool).
Hypothesis same_spec : forall a b, same a b = true <-> key a = key b.

Lemma drop_duplicates_incl l x : In x (drop_duplicates same l) -> In x l.
Proof.
  revert x; induction l as [|a t IH]; simpl; intros x H; [exact H|].
  destruct H as [H|H]; [now left|].
  apply filter_In in H. right. apply IH, H.
Qed.

Lemma drop_duplicates_keys l x :
  In x l -> exists y, In y (drop_duplicates same l) /\ key y = key x.
Proof.
  induction l as [|a t IH]; simpl; intros H; [contradiction|].
  destruct H as [->|H]; [exists x; auto|].
  destruct (IH H) as (y & Hy & Hk).
  destruct (same a y) eqn:E.
  - exists a. split; [now left|]. apply same_spec in E. congruence.
  - exists y. split; [|exact Hk]. right. apply filter_In. now rewrite E.
Qed.

Lemma drop_duplicates_NoDup l : NoDup (map key (drop_duplicates same l)).
Proof.
  induction l as [|a t IH]; simpl; [constructor|].
  constructor.
  - intros H. apply in_map_iff in H. destruct H as (y & Hk & Hy).
    apply filter_In in Hy. destruct Hy as [_ Hy].
    assert (E : same a y = true) by (apply same_spec; congruence).
    now rewrite E in Hy.
  - clear -IH. induction (drop_duplicates same t) as [|b u IHu]; simpl; [constructor|].
    inversion IH; subst.
    destruct (negb (same a b)); simpl; auto.
    constructor; auto.
    intros H. apply in_map_iff in H. destruct H as (y & Hk & Hy).
    apply filter_In in Hy. apply H1. apply in_map_iff. exists y. tauto.
Qed.

Lemma drop_duplicates_key_in l k :
  In k (map key (drop_duplicates same l)) <-> In k (map key l).
Proof.
  rewrite !in_map_iff. split; intros (x & Hk & Hx).
  - exists x. split; [exact Hk|]. now apply drop_duplicates_incl.
  - destruct (drop_duplicates_keys l x Hx) as (y & Hy & E).
    exists y. split; [congruence|exact Hy].
Qed.

Lemma drop_duplicates_last_incl l x : In x (drop_duplicates_last same l) -> In x l.
Proof.
  revert x; induction l as [|a t IH]; simpl; intros x H; [exact H|].
  destruct (existsb (same a) t); [right; auto|].
  destruct H as [H|H]; [now left|right; auto].
Qed.

Lemma drop_duplicates_last_NoDup l : NoDup (map key (drop_duplicates_last same l)).
Proof.
  induction l as [|a t IH]; simpl; [constructor|].
  destruct (existsb (same a) t) eqn:E; [exact IH|].
  simpl. constructor; [|exact IH].
  intros H. apply in_map_iff in H. destruct H as (y & Hk & Hy).
  apply drop_duplicates_last_incl in Hy.
  assert (existsb (same a) t = true); [|congruence].
  apply existsb_exists. exists y. split; [exact Hy|]. apply same_spec. congruence.
Qed.
End DropDuplicates.

Section Nunique.
Context {A : Type} (eqb : A -> A -> bool).
Hypothesis eqb_spec : forall a b, eqb a b = true <-> a = b.

Lemma drop_duplicates_In l x : In x (drop_duplicates eqb l) <-> In x l.
Proof.
  split; [apply drop_duplicates_incl|].
  intros H.
  destruct (drop_duplicates_keys (fun a => a) eqb eqb_spec l x H) as (y & Hy & E).
  now subst.
Qed.

Lemma drop_duplicates_NoDup_id l : NoDup (drop_duplicates eqb l).
Proof.
  rewrite <- (map_id (drop_duplicates eqb l)).
  exact (drop_duplicates_NoDup (fun a => a) eqb eqb_spec l).
Qed.

Lemma nunique_same_elements l1 l2 :
  (forall x, In x l1 <-> In x l2) -> nunique eqb l1 = nunique eqb l2.
Proof.
  intros H. unfold nunique. apply Permutation_length.
  apply NoDup_Permutation; try apply drop_duplicates_NoDup_id.
  intros x. rewrite !drop_duplicates_In. apply H.
Qed.

Lemma nunique_one l x y : nunique eqb l = 1%nat -> In x l -> In y l -> x = y.
Proof.
  unfold nunique. intros H Hx Hy.
  apply drop_duplicates_In in Hx. apply drop_duplicates_In in Hy.
  destruct (drop_duplicates eqb l) as [|a [|b u]]; simpl in *; try discriminate.
  destruct Hx as [<-|[]]. destruct Hy as [<-|[]]. reflexivity.
Qed.

Lemma nunique_pos l x : In x l -> (1 <= nunique eqb l)%nat.
Proof.
  unfold nunique. intros Hx. apply drop_duplicates_In in Hx.
  destruct (drop_duplicates eqb l); simpl in *; [contradiction|lia].
Qed.

Lemma nunique_le_length l : (nunique eqb l <= List.length l)%nat.
Proof.
  unfold nunique. apply NoDup_incl_length; [apply drop_duplicates_NoDup_id|].
  intros x. apply drop_duplicates_In.
Qed.
End Nunique.

(** ** Sorting and [nsmallest] *)

Lemma insert_sorted_perm x l : Permutation (x :: l) (insert_sorted x l).
Proof.
  induction l as [|y t IH]; simpl; [reflexivity|].
  destruct (x <=? y); [reflexivity|].
  rewrite perm_swap. now constructor.
Qed.

Lemma sort_values_perm l : Permutation l (sort_values l).
Proof.
  induction l as [|x t IH]; simpl; [constructor|].
  rewrite <- insert_sorted_perm. now constructor.
Qed.

Lemma insert_sorted_sorted x l :
  StronglySorted Z.le l -> StronglySorted Z.le (insert_sorted x l).
Proof.
  induction 1 as [|y t Hs IH Hall]; simpl.
  - repeat constructor.
  - destruct (x <=? y) eqn:E.
    + apply Z.leb_le in E. constructor; [now constructor|].
      constructor; [exact E|].
      eapply Forall_impl; [|exact Hall]. simpl. intros; lia.
    + apply Z.leb_gt in E. constructor; [exact IH|].
      rewrite <- insert_sorted_perm. constructor; [lia|exact Hall].
Qed.

Lemma sort_values_sorted l : StronglySorted Z.le (sort_values l).
Proof.
  induction l as [|x t IH]; simpl; [constructor|].
  now apply insert_sorted_sorted.
Qed.

Lemma sort_values_In l x : In x (sort_values l) <-> In x l.
Proof.
  split; apply Permutation_in; [symmetry|]; apply sort_values_perm.
Qed.

Lemma sort_values_NoDup l : NoDup l -> NoDup (sort_values l).
Proof. apply Permutation_NoDup, sort_values_perm. Qed.

(** With at least two values, all distinct, the last of the two smallest is
    the second-smallest value. *)
Lemma nsmallest_second l :
  NoDup l -> (2 <= List.length l)%nat ->
  exists a b, nsmallest 2 l = [a; b] /\ second_smallest l b.
Proof.
  intros Hnd Hlen. unfold nsmallest.
  pose proof (sort_values_perm l) as Hp.
  pose proof (sort_values_sorted l) as Hs.
  pose proof (sort_values_NoDup l Hnd) as Hn.
  rewrite (Permutation_length Hp) in Hlen.
  destruct (sort_values l) as [|a [|b u]] eqn:E; simpl in Hlen; try lia.
  exists a, b. split; [reflexivity|].
  inversion Hs as [|? ? Hs' Ha]; subst.
  inversion Hs' as [|? ? _ Hb]; subst.
  inversion Ha as [|? ? Hab Hau]; subst.
  inversion Hn as [|? ? Hna _]; subst.
  assert (a <> b) by (intros ->; apply Hna; now left).
  assert (Hin : forall x, In x l <-> In x (a :: b :: u)).
  { intros x. rewrite <- E. symmetry. apply sort_values_In. }
  split; [apply Hin; simpl; auto|].
  exists a. split; [apply Hin; simpl; auto|]. split; [lia|].
  intros x Hx. apply Hin in Hx. destruct Hx as [<-|[<-|Hx]].
  - now left.
  - right; lia.
  - right. rewrite Forall_forall in Hb. now apply Hb.
Qed.

(** The second-smallest value depends on the set of values only. *)
Lemma second_smallest_unique l1 l2 r1 r2 :
  (forall x, In x l1 <-> In x l2) ->
  second_smallest l1 r1 -> second_smallest l2 r2 -> r1 = r2.
Proof.
  intros H (Hr1 & m1 & Hm1 & Hlt1 & Hall1) (Hr2 & m2 & Hm2 & Hlt2 & Hall2).
  apply H in Hr1, Hm1. apply H in Hr2, Hm2.
  destruct (Hall1 _ Hr2), (Hall1 _ Hm2), (Hall2 _ Hr1), (Hall2 _ Hm1); lia.
Qed.

(** [keep='last'] over a frame grouped by key: the last row of each group. *)
Lemma drop_duplicates_last_group (k : Z) (l : list Z) (rest : list (Z * Z)) :
  ~ In k (map fst rest) ->
  drop_duplicates_last (fun a b => fst a =? fst b) (map (fun r => (k, r)) l ++ rest)
  = match l with [] => [] | _ => [(k, last l 0)] end
    ++ drop_duplicates_last (fun a b => fst a =? fst b) rest.
Proof.
  intros Hk. induction l as [|x t IH]; [reflexivity|].
  cbn [map app drop_duplicates_last]. destruct t as [|y u].
  - cbn [map app]. 
    replace (existsb (fun b : Z * Z => fst (k, x) =? fst b) rest) with false; [reflexivity|].
    symmetry. apply not_true_is_false. intros H. apply existsb_exists in H.
    destruct H as (p & Hp & E). apply Z.eqb_eq in E. simpl in E.
    apply Hk. apply in_map_iff. exists p. auto.
  - replace (existsb (fun b : Z * Z => fst (k, x) =? fst b)
               (map (fun r => (k, r)) (y :: u) ++ rest)) with true.
    + rewrite IH. reflexivity.
    + symmetry. simpl. now rewrite Z.eqb_refl.
Qed.

Lemma drop_duplicates_last_grouped (f : Z -> list Z) (keys : list Z) :
  NoDup keys ->
  drop_duplicates_last (fun a b => fst a =? fst b)
    (flat_map (fun k => map (fun r => (k, r)) (f k)) keys)
  = flat_map (fun k => match f k with [] => [] | _ => [(k, last (f k) 0)] end) keys.
Proof.
  induction 1 as [|k t Hk Hnd IH]; [reflexivity|].
  cbn [flat_map]. rewrite drop_duplicates_last_group, IH; [reflexivity|].
  intros H. apply in_map_iff in H. destruct H as ((k', r) & E & H). simpl in E. subst k'.
  apply in_flat_map in H. destruct H as (k' & Hk' & H).
  apply in_map_iff in H. destruct H as (r' & E & _). inversion E; subst. contradiction.
Qed.

(** ** The deduplicated candidate relation *)

Lemma same_triple_spec a b : same_triple a b = true <-> a = b.
Proof.
  unfold same_triple. rewrite !andb_true_iff, !Z.eqb_eq, String.eqb_eq.
  destruct a, b; simpl. split.
  - intros [[-> ->] ->]. reflexivity.
  - intros E. inversion E. auto.
Qed.

Lemma merge_on_rate_area_In zs ps r :
  In r (merge_on_rate_area zs ps) <->
  exists z p, In z zs /\ In p ps /\ zk_rate_area z = pk_rate_area p /\ r = join_row z p.
Proof.
  unfold merge_on_rate_area. rewrite in_flat_map. split.
  - intros (k & _ & H). apply in_flat_map in H. destruct H as (z & Hz & H).
    apply filter_In in Hz. destruct Hz as [Hz Ez]. apply String.eqb_eq in Ez.
    apply in_map_iff in H. destruct H as (p & <- & Hp).
    apply filter_In in Hp. destruct Hp as [Hp Ep]. apply String.eqb_eq in Ep.
    exists z, p. repeat split; auto. congruence.
  - intros (z & p & Hz & Hp & E & ->). exists (zk_rate_area z). split.
    + apply (drop_duplicates_In _ String.eqb_eq). now apply in_map.
    + apply in_flat_map. exists z. split.
      * apply filter_In. split; [exact Hz|]. apply String.eqb_refl.
      * apply in_map. apply filter_In. split; [exact Hp|]. now apply String.eqb_eq.
Qed.

(** The candidates are the triples a zip row and a Silver plan row of the
    same rating area give. *)
Lemma silver_rates_In zs ps r :
  In r (silver_rates zs ps) <->
  exists z p, In z zs /\ In p ps /\
    combine_rate_area (zr_state z) (zr_rate_area z)
      = combine_rate_area (pr_state p) (pr_rate_area p) /\
    is_silver (pr_metal_level p) = true /\
    r = mkSilverRate (zr_zipcode z)
          (combine_rate_area (zr_state z) (zr_rate_area z)) (pr_rate p).
Proof.
  unfold silver_rates. rewrite (drop_duplicates_In _ same_triple_spec).
  unfold drop_plan_columns, silver_only. rewrite in_map_iff. split.
  - intros (j & <- & Hj). apply filter_In in Hj. destruct Hj as [Hj Hs].
    apply merge_on_rate_area_In in Hj. destruct Hj as (zk & pk & Hz & Hp & E & ->).
    apply in_map_iff in Hz. destruct Hz as (z & <- & Hz).
    apply in_map_iff in Hp. destruct Hp as (p & <- & Hp).
    simpl in *. exists z, p. auto.
  - intros (z & p & Hz & Hp & E & Hs & ->).
    exists (join_row
              (mkZipKeyed (zr_zipcode z) (zr_county_code z) (zr_name z)
                 (combine_rate_area (zr_state z) (zr_rate_area z)))
              (mkPlanKeyed (pr_plan_id p) (pr_metal_level p) (pr_rate p)
                 (combine_rate_area (pr_state p) (pr_rate_area p)))).
    split; [reflexivity|]. apply filter_In. split; [|exact Hs].
    apply merge_on_rate_area_In. eexists _, _. split; [|split; [|split; [|reflexivity]]].
    + unfold key_zips. apply in_map_iff. exists z. auto.
    + unfold key_plans. apply in_map_iff. exists p. auto.
    + exact E.
Qed.

Lemma silver_rates_NoDup zs ps : NoDup (silver_rates zs ps).
Proof. apply (drop_duplicates_NoDup_id _ same_triple_spec). Qed.

Lemma group_of_In k rows r : In r (group_of k rows) <-> In r rows /\ sr_zipcode r = k.
Proof. unfold group_of. rewrite filter_In, Z.eqb_eq. tauto. Qed.

Lemma rates_of_In k rows x :
  In x (rates_of k rows) <-> In (k, x) (map (fun r => (sr_zipcode r, sr_rate r)) rows).
Proof.
  unfold rates_of. rewrite !in_map_iff. split.
  - intros (r & <- & Hr). apply group_of_In in Hr. destruct Hr as [Hr <-]. eauto.
  - intros (r & E & Hr). inversion E; subst. exists r. split; [reflexivity|].
    now apply group_of_In.
Qed.

Lemma group_nonempty k rows :
  In k (map sr_zipcode rows) <-> exists r, In r (group_of k rows).
Proof.
  rewrite in_map_iff. split; intros (r & H); exists r; apply group_of_In in H || apply group_of_In; tauto.
Qed.

(** A zip code of the relation has at least one area and one rate. *)
Lemma counts_pos k rows :
  In k (map sr_zipcode rows) ->
  (1 <= area_count k rows)%nat /\ (1 <= rate_count k rows)%nat.
Proof.
  intros H. apply group_nonempty in H. destruct H as (r & Hr).
  unfold area_count, rate_count. split.
  - apply (nunique_pos _ String.eqb_eq _ (sr_rate_area r)). now apply in_map.
  - apply (nunique_pos _ Z.eqb_eq _ (sr_rate r)). now apply in_map.
Qed.

(** In a single rating area the rates of a zip code are pairwise distinct
    rows of the deduplicated relation. *)
Lemma rates_of_NoDup k rows :
  NoDup rows -> area_count k rows = 1%nat -> NoDup (rates_of k rows).
Proof.
  intros Hnd Ha. unfold rates_of. apply NoDup_map_NoDup_ForallPairs.
  - intros x y Hx Hy E.
    assert (sr_rate_area x = sr_rate_area y).
    { apply (nunique_one _ String.eqb_eq _ _ _ Ha); now apply in_map. }
    apply group_of_In in Hx, Hy. destruct x, y; simpl in *.
    destruct Hx as [_ ->], Hy as [_ ->]. congruence.
  - unfold group_of. now apply NoDup_filter.
Qed.

Lemma determinable_second k rows :
  NoDup rows -> determinable k rows ->
  exists a b, nsmallest 2 (rates_of k rows) = [a; b] /\ second_smallest (rates_of k rows) b.
Proof.
  intros Hnd [Ha Hr]. apply nsmallest_second; [now apply rates_of_NoDup|].
  pose proof (nunique_le_length _ Z.eqb_eq (rates_of k rows)).
  unfold rate_count in Hr. unfold rates_of in *. lia.
Qed.

(** The two masks, as functions of the zip code. *)
Lemma is_second_lowest_determinable k rows r :
  sr_zipcode r = k ->
  is_second_lowest (mkCounted (sr_zipcode r) (sr_rate_area r) (sr_rate r)
                      (area_count (sr_zipcode r) rows) (rate_count (sr_zipcode r) rows)) = true
  <-> determinable k rows.
Proof.
  intros ->. unfold is_second_lowest, determinable. simpl.
  rewrite andb_true_iff, Nat.eqb_eq, Nat.ltb_lt. lia.
Qed.

Lemma is_no_lowest_undetermined k rows r :
  sr_zipcode r = k ->
  is_no_lowest (mkCounted (sr_zipcode r) (sr_rate_area r) (sr_rate r)
                  (area_count (sr_zipcode r) rows) (rate_count (sr_zipcode r) rows)) = true
  <-> undetermined k rows.
Proof.
  intros ->. unfold is_no_lowest, undetermined. simpl.
  rewrite orb_true_iff, Nat.eqb_eq, Nat.ltb_lt. lia.
Qed.

(** The two classification conditions exclude each other. *)
Lemma determinable_not_undetermined k rows :
  determinable k rows -> undetermined k rows -> False.
Proof. unfold determinable, undetermined. lia. Qed.

Lemma determinable_or_undetermined k rows :
  In k (map sr_zipcode rows) -> determinable k rows \/ undetermined k rows.
Proof.
  intros H. apply counts_pos in H. unfold determinable, undetermined. lia.
Qed.

(** ** The two groups of [find_slcsp] *)

Section Groups.
Variable rows : list SilverRate.

Let annot (r : SilverRate) : Counted :=
  mkCounted (sr_zipcode r) (sr_rate_area r) (sr_rate r)
    (area_count (sr_zipcode r) rows) (rate_count (sr_zipcode r) rows).

(** The rates of group [k] in the frame masked at line 52. *)
Lemma second_lowest_group k l :
  determinable k rows ->
  map ct_rate (filter (fun r => ct_zipcode r =? k)
                 (filter is_second_lowest (map annot l)))
  = rates_of k l.
Proof.
  intros Hd. unfold rates_of, group_of.
  induction l as [|r t IH]; [reflexivity|].
  cbn [map filter]. destruct (sr_zipcode r =? k) eqn:E.
  - apply Z.eqb_eq in E.
    assert (H : is_second_lowest (annot r) = true)
      by now apply (is_second_lowest_determinable k).
    rewrite H. cbn [filter]. replace (ct_zipcode (annot r)) with (sr_zipcode r) by reflexivity.
    apply Z.eqb_eq in E. rewrite E. cbn [map]. now rewrite IH.
  - destruct (is_second_lowest (annot r)); [|exact IH].
    cbn [filter]. replace (ct_zipcode (annot r)) with (sr_zipcode r) by reflexivity.
    now rewrite E.
Qed.

Lemma second_lowest_keys k l :
  In k (map ct_zipcode (filter is_second_lowest (map annot l)))
  <-> In k (map sr_zipcode l) /\ determinable k rows.
Proof.
  rewrite !in_map_iff. split.
  - intros (c & <- & Hc). apply filter_In in Hc. destruct Hc as [Hc Hm].
    apply in_map_iff in Hc. destruct Hc as (r & <- & Hr).
    split; [now exists r|].
    now apply (is_second_lowest_determinable _ rows r).
  - intros ((r & <- & Hr) & Hd). exists (annot r). split; [reflexivity|].
    apply filter_In. split; [now apply in_map|].
    now apply (is_second_lowest_determinable (sr_zipcode r)).
Qed.

Lemma no_lowest_keys k l :
  In k (map ct_zipcode (filter is_no_lowest (map annot l)))
  <-> In k (map sr_zipcode l) /\ undetermined k rows.
Proof.
  rewrite !in_map_iff. split.
  - intros (c & <- & Hc). apply filter_In in Hc. destruct Hc as [Hc Hm].
    apply in_map_iff in Hc. destruct Hc as (r & <- & Hr).
    split; [now exists r|].
    now apply (is_no_lowest_undetermined _ rows r).
  - intros ((r & <- & Hr) & Hd). exists (annot r). split; [reflexivity|].
    apply filter_In. split; [now apply in_map|].
    now apply (is_no_lowest_undetermined (sr_zipcode r)).
Qed.

Hypothesis rows_NoDup : NoDup rows.

(** The rows of [second_lowest_rows]: the determinable zip codes, each with
    the second-smallest of its rates. *)
Lemma second_lowest_rows_In row :
  In row (second_lowest_rows (with_counts rows)) <->
  In (zipcode row) (map sr_zipcode rows) /\ determinable (zipcode row) rows /\
  exists r, rate row = Some r /\ second_smallest (rates_of (zipcode row) rows) r.
Proof.
  unfold second_lowest_rows, groupby_nsmallest.
  change (with_counts rows) with (map annot rows).
  set (D := filter is_second_lowest (map annot rows)).
  assert (Hkeys : forall k, In k (group_keys D) <->
                    In k (map sr_zipcode rows) /\ determinable k rows).
  { intros k. unfold group_keys.
    rewrite sort_values_In, (drop_duplicates_In _ Z.eqb_eq).
    apply second_lowest_keys. }
  rewrite (drop_duplicates_last_grouped
             (fun k => nsmallest 2 (map ct_rate (filter (fun r => ct_zipcode r =? k) D)))).
  2:{ unfold group_keys. apply sort_values_NoDup.
      apply (drop_duplicates_NoDup_id _ Z.eqb_eq). }
  rewrite in_map_iff. split.
  - intros ((k, r) & <- & H). apply in_flat_map in H. destruct H as (k' & Hk' & H).
    apply Hkeys in Hk'. destruct Hk' as [Hin Hd].
    unfold D in H. rewrite (second_lowest_group k' rows Hd) in H.
    destruct (determinable_second k' rows rows_NoDup Hd) as (a & b & E & Hb).
    rewrite E in H. simpl in H. destruct H as [H|[]]. inversion H; subst.
    simpl. eauto.
  - intros (Hin & Hd & r & Hr & Hs). destruct row as [k o]. simpl in *. subst o.
    destruct (determinable_second k rows rows_NoDup Hd) as (a & b & E & Hb).
    assert (r = b) by (eapply second_smallest_unique; [|exact Hs|exact Hb]; tauto).
    subst r. exists (k, b). split; [reflexivity|].
    apply in_flat_map. exists k. split; [apply Hkeys; auto|].
    unfold D. rewrite (second_lowest_group k rows Hd), E. simpl. auto.
Qed.

(** The rows of [no_lowest_df]: the undetermined zip codes, without rate. *)
Lemma no_lowest_df_In row :
  In row (no_lowest_df (with_counts rows)) <->
  In (zipcode row) (map sr_zipcode rows) /\ undetermined (zipcode row) rows /\
  rate row = None.
Proof.
  unfold no_lowest_df. change (with_counts rows) with (map annot rows).
  assert (Hk : forall k,
             In k (map ct_zipcode
                     (drop_duplicates (fun a b => ct_zipcode a =? ct_zipcode b)
                        (filter is_no_lowest (map annot rows))))
             <-> In k (map sr_zipcode rows) /\ undetermined k rows).
  { intros k. rewrite <- no_lowest_keys.
    apply (drop_duplicates_key_in ct_zipcode). intros; apply Z.eqb_eq. }
  rewrite in_map_iff. split.
  - intros (c & <- & Hc). simpl.
    assert (H : In (ct_zipcode c) (map sr_zipcode rows) /\ undetermined (ct_zipcode c) rows)
      by (apply Hk; now apply in_map).
    tauto.
  - intros (Hin & Hu & Hr).
    assert (H : In (zipcode row) (map sr_zipcode rows) /\ undetermined (zipcode row) rows)
      by tauto.
    apply Hk in H. apply in_map_iff in H. destruct H as (c & E & Hc).
    exists c. split; [|exact Hc]. destruct row; simpl in *. now subst.
Qed.

Lemma second_lowest_rows_NoDup : NoDup (map zipcode (second_lowest_rows (with_counts rows))).
Proof.
  unfold second_lowest_rows. rewrite map_map. simpl.
  apply (drop_duplicates_last_NoDup fst). intros; apply Z.eqb_eq.
Qed.

Lemma no_lowest_df_NoDup : NoDup (map zipcode (no_lowest_df (with_counts rows))).
Proof.
  unfold no_lowest_df. rewrite map_map. simpl.
  apply (drop_duplicates_NoDup ct_zipcode). intros; apply Z.eqb_eq.
Qed.

(** The frame [slcsp_frame] returns has one row per zip code of the
    relation and none for any other. *)
Lemma concat_groups_NoDup :
  NoDup (map zipcode (second_lowest_rows (with_counts rows) ++ no_lowest_df (with_counts rows))).
Proof.
  rewrite map_app. apply NoDup_app.
  - apply second_lowest_rows_NoDup.
  - apply no_lowest_df_NoDup.
  - intros k H1 H2. apply in_map_iff in H1, H2.
    destruct H1 as (r1 & <- & H1), H2 as (r2 & E & H2).
    apply second_lowest_rows_In in H1. apply no_lowest_df_In in H2. rewrite E in H2.
    eapply determinable_not_undetermined; [apply H1|apply H2].
Qed.
End Groups.

(** ** The frame returned by [find_slcsp] *)

Lemma slcsp_frame_NoDup zs ps : NoDup (map zipcode (slcsp_frame zs ps)).
Proof. apply concat_groups_NoDup, silver_rates_NoDup. Qed.

Lemma slcsp_frame_In zs ps row :
  In row (slcsp_frame zs ps) <->
  In (zipcode row) (map sr_zipcode (silver_rates zs ps)) /\
  ((determinable (zipcode row) (silver_rates zs ps) /\
    exists r, rate row = Some r /\
              second_smallest (rates_of (zipcode row) (silver_rates zs ps)) r)
   \/ (undetermined (zipcode row) (silver_rates zs ps) /\ rate row = None)).
Proof.
  unfold slcsp_frame. rewrite in_app_iff.
  rewrite (second_lowest_rows_In _ (silver_rates_NoDup zs ps)), no_lowest_df_In.
  tauto.
Qed.

Lemma slcsp_frame_keys zs ps z :
  In z (map zipcode (slcsp_frame zs ps)) <-> In z (map sr_zipcode (silver_rates zs ps)).
Proof.
  split.
  - intros H. apply in_map_iff in H. destruct H as (row & <- & H).
    now apply slcsp_frame_In in H.
  - intros H. set (rows := silver_rates zs ps) in *.
    destruct (determinable_or_undetermined z rows H) as [Hd|Hu].
    + destruct (determinable_second z rows (silver_rates_NoDup zs ps) Hd) as (a & b & _ & Hb).
      apply in_map_iff. exists (mkSlcspRow z (Some b)). split; [reflexivity|].
      apply slcsp_frame_In. simpl. split; [exact H|]. left. eauto.
    + apply in_map_iff. exists (mkSlcspRow z None). split; [reflexivity|].
      apply slcsp_frame_In. simpl. auto.
Qed.

(** ** Lookup in a frame keyed by zip code *)

Lemma filter_zipcode_none z frame :
  ~ In z (map zipcode frame) -> filter (fun r => zipcode r =? z) frame = [].
Proof.
  induction frame as [|a t IH]; [reflexivity|]. simpl. intros H.
  destruct (zipcode a =? z) eqn:E.
  - apply Z.eqb_eq in E. tauto.
  - apply IH. tauto.
Qed.

Lemma filter_zipcode_unique z frame :
  NoDup (map zipcode frame) ->
  filter (fun r => zipcode r =? z) frame
  = match find (fun r => zipcode r =? z) frame with Some m => [m] | None => [] end.
Proof.
  induction frame as [|a t IH]; [reflexivity|]. simpl. intros H.
  inversion H as [|? ? Hn Hnd]; subst.
  destruct (zipcode a =? z) eqn:E.
  - apply Z.eqb_eq in E. subst z. now rewrite filter_zipcode_none.
  - now apply IH.
Qed.

Lemma selected_rate_In z o frame :
  NoDup (map zipcode frame) -> In (mkSlcspRow z o) frame -> selected_rate z frame = o.
Proof.
  unfold selected_rate. induction frame as [|a t IH]; simpl; [tauto|].
  intros H Hin. inversion H as [|? ? Hn Hnd]; subst.
  destruct Hin as [->|Hin].
  - simpl. now rewrite Z.eqb_refl.
  - destruct (zipcode a =? z) eqn:E; [|now apply IH].
    apply Z.eqb_eq in E. exfalso. apply Hn. rewrite E.
    change z with (zipcode (mkSlcspRow z o)). now apply in_map.
Qed.

Lemma selected_rate_missing z frame :
  ~ In z (map zipcode frame) -> selected_rate z frame = None.
Proof.
  unfold selected_rate. intros H.
  destruct (find (fun r => zipcode r =? z) frame) as [m|] eqn:E; [|reflexivity].
  apply find_some in E. destruct E as [Hm E]. apply Z.eqb_eq in E. subst z.
  exfalso. apply H. now apply in_map.
Qed.

(** The left merge against a frame with one row per zip code: one output
    row per left row. *)
Lemma merge_left_unique slcsp_df right :
  NoDup (map zipcode right) ->
  merge_left slcsp_df right
  = map (fun z => mkSlcspRow z (selected_rate z right)) slcsp_df.
Proof.
  intros Hnd. unfold merge_left.
  set (F := fun z : Z => match filter (fun r => zipcode r =? z) right with
                         | [] => [mkSlcspRow z None]
                         | ms => map (fun m => mkSlcspRow z (rate m)) ms
                         end).
  set (G := fun z : Z => mkSlcspRow z (selected_rate z right)).
  assert (HFG : forall z, F z = [G z]).
  { intros z. unfold F, G, selected_rate.
    rewrite (filter_zipcode_unique z right Hnd).
    destruct (find (fun r => zipcode r =? z) right); reflexivity. }
  induction slcsp_df as [|z t IH]; [reflexivity|].
  change (F z ++ flat_map F t = G z :: map G t).
  now rewrite IH, HFG.
Qed.

Lemma printed_rows target zs ps :
  merge_left (map tr_zipcode target) (slcsp_frame zs ps)
  = map (fun t => mkSlcspRow (tr_zipcode t)
                    (selected_rate (tr_zipcode t) (slcsp_frame zs ps))) target.
Proof.
  rewrite (merge_left_unique _ _ (slcsp_frame_NoDup zs ps)). now rewrite map_map.
Qed.

(** The selected rate of a zip code, from the candidate relation. *)
Lemma selected_rate_determinable zs ps z :
  determinable z (silver_rates zs ps) ->
  exists r, selected_rate z (slcsp_frame zs ps) = Some r /\
            second_smallest (rates_of z (silver_rates zs ps)) r.
Proof.
  intros Hd.
  destruct (determinable_second z _ (silver_rates_NoDup zs ps) Hd) as (a & b & _ & Hb).
  exists b. split; [|exact Hb].
  apply selected_rate_In; [apply slcsp_frame_NoDup|].
  apply slcsp_frame_In. simpl. split; [|left; eauto].
  destruct Hb as [Hb _]. unfold rates_of in Hb. apply in_map_iff in Hb.
  destruct Hb as (r & _ & Hr). apply group_of_In in Hr. destruct Hr as [Hr <-].
  now apply in_map.
Qed.

Lemma selected_rate_undetermined zs ps z :
  undetermined z (silver_rates zs ps) -> selected_rate z (slcsp_frame zs ps) = None.
Proof.
  intros Hu.
  destruct (in_dec Z.eq_dec z (map sr_zipcode (silver_rates zs ps))) as [Hin|Hin].
  - apply selected_rate_In; [apply slcsp_frame_NoDup|].
    apply slcsp_frame_In. simpl. auto.
  - apply selected_rate_missing. now rewrite slcsp_frame_keys.
Qed.

(** ** Dependence on the set of candidates only *)

Lemma area_count_same_rows k rows1 rows2 :
  (forall r, In r rows1 <-> In r rows2) -> area_count k rows1 = area_count k rows2.
Proof.
  intros H. unfold area_count. apply (nunique_same_elements _ String.eqb_eq).
  intros x. rewrite !in_map_iff.
  split; intros (r & E & Hr); exists r; (split; [exact E|]);
    apply group_of_In; apply group_of_In in Hr; destruct Hr; split; auto; now apply H.
Qed.

Lemma rates_of_same_rows k rows1 rows2 :
  (forall r, In r rows1 <-> In r rows2) ->
  forall x, In x (rates_of k rows1) <-> In x (rates_of k rows2).
Proof.
  intros H x. unfold rates_of. rewrite !in_map_iff.
  split; intros (r & E & Hr); exists r; (split; [exact E|]);
    apply group_of_In; apply group_of_In in Hr; destruct Hr; split; auto; now apply H.
Qed.

Lemma rate_count_same_rows k rows1 rows2 :
  (forall r, In r rows1 <-> In r rows2) -> rate_count k rows1 = rate_count k rows2.
Proof.
  intros H. unfold rate_count. apply (nunique_same_elements _ Z.eqb_eq).
  apply (rates_of_same_rows k _ _ H).
Qed.

Lemma silver_rates_variant zs ps zs' ps' :
  Permutation zs zs' -> reordered_with_duplicates ps ps' ->
  forall r, In r (silver_rates zs ps) <-> In r (silver_rates zs' ps').
Proof.
  intros Hz (extra & Hp & Hextra) r. rewrite !silver_rates_In. split.
  - intros (z & p & Hzin & Hpin & E & Hs & ->). exists z, p.
    repeat split; auto.
    + eapply Permutation_in; [exact Hz|exact Hzin].
    + eapply Permutation_in; [exact Hp|]. apply in_or_app. now right.
  - intros (z & p & Hzin & Hpin & E & Hs & ->).
    assert (Hz' : In z zs) by (eapply Permutation_in; [symmetry; exact Hz|exact Hzin]).
    apply (Permutation_in _ (Permutation_sym Hp)) in Hpin.
    apply in_app_or in Hpin. destruct Hpin as [Hpin|Hpin].
    + destruct (Hextra p Hpin) as (q & Hq & Hsq & Hk & Hr).
      exists z, q. repeat split; auto; congruence.
    + exists z, p. repeat split; auto.
Qed.

(** ** The join and the Silver filter commute *)

Lemma filter_filter_comm {A : Type} (f g : A -> bool) l :
  filter f (filter g l) = filter g (filter f l).
Proof.
  induction l as [|a t IH]; [reflexivity|]. simpl.
  destruct (f a) eqn:Ef, (g a) eqn:Eg; simpl; rewrite ?Ef, ?Eg, IH; reflexivity.
Qed.

Lemma filter_map_comm {A B : Type} (f : B -> bool) (g : A -> B) l :
  filter f (map g l) = map g (filter (fun a => f (g a)) l).
Proof.
  induction l as [|a t IH]; [reflexivity|]. simpl.
  destruct (f (g a)); simpl; now rewrite IH.
Qed.

Lemma filter_flat_map {A B : Type} (f : B -> bool) (g : A -> list B) l :
  filter f (flat_map g l) = flat_map (fun x => filter f (g x)) l.
Proof.
  induction l as [|a t IH]; [reflexivity|]. simpl. now rewrite filter_app, IH.
Qed.

Lemma map_flat_map_comm {A B C : Type} (f : B -> C) (g : A -> list B) l :
  map f (flat_map g l) = flat_map (fun x => map f (g x)) l.
Proof.
  induction l as [|a t IH]; [reflexivity|]. simpl. now rewrite map_app, IH.
Qed.

Lemma flat_map_map_comm {A B C : Type} (f : B -> list C) (g : A -> B) l :
  flat_map f (map g l) = flat_map (fun x => f (g x)) l.
Proof.
  induction l as [|a t IH]; [reflexivity|]. simpl. now rewrite IH.
Qed.

Lemma silver_only_join zs ps :
  silver_only (merge_on_rate_area zs ps) = join_silver_spec zs ps.
Proof.
  unfold join_silver_spec, silver_plans_spec, silver_only, merge_on_rate_area.
  rewrite filter_flat_map. apply flat_map_ext. intros k.
  rewrite filter_flat_map. apply flat_map_ext. intros z.
  rewrite filter_map_comm. simpl. f_equal. apply filter_filter_comm.
Qed.

(** ** More on [nunique] and on the second-smallest value *)

Lemma nunique_two {A : Type} (eqb : A -> A -> bool)
    (eqb_spec : forall a b, eqb a b = true <-> a = b) l x y :
  In x l -> In y l -> x <> y -> (2 <= nunique eqb l)%nat.
Proof.
  intros Hx Hy Hxy. unfold nunique.
  apply (drop_duplicates_In eqb eqb_spec) in Hx, Hy.
  destruct (drop_duplicates eqb l) as [|a [|b u]]; simpl in *; [contradiction| |lia].
  destruct Hx as [<-|[]], Hy as [<-|[]]. congruence.
Qed.

Lemma nunique_two_elements {A : Type} (eqb : A -> A -> bool)
    (eqb_spec : forall a b, eqb a b = true <-> a = b) l :
  (2 <= nunique eqb l)%nat -> exists x y, In x l /\ In y l /\ x <> y.
Proof.
  unfold nunique. intros H.
  pose proof (drop_duplicates_NoDup_id eqb eqb_spec l) as Hnd.
  assert (Hin : forall x, In x (drop_duplicates eqb l) -> In x l)
    by (intros x; apply (drop_duplicates_In eqb eqb_spec)).
  destruct (drop_duplicates eqb l) as [|a [|b u]]; simpl in H; try lia.
  exists a, b. split; [apply Hin; simpl; auto|]. split; [apply Hin; simpl; auto|].
  inversion Hnd as [|? ? Hn _]; subst. intros ->. apply Hn. now left.
Qed.

Lemma nunique_all_same {A : Type} (eqb : A -> A -> bool)
    (eqb_spec : forall a b, eqb a b = true <-> a = b) l c :
  (forall x, In x l -> x = c) -> (nunique eqb l <= 1)%nat.
Proof.
  intros H. unfold nunique.
  pose proof (drop_duplicates_NoDup_id eqb eqb_spec l) as Hnd.
  assert (Hc : forall x, In x (drop_duplicates eqb l) -> x = c)
    by (intros x Hx; apply H; now apply (drop_duplicates_In eqb eqb_spec)).
  destruct (drop_duplicates eqb l) as [|a [|b u]]; simpl; try lia.
  exfalso. inversion Hnd as [|? ? Hn _]; subst. apply Hn.
  rewrite (Hc a), (Hc b); simpl; auto.
Qed.

Lemma nunique_NoDup {A : Type} (eqb : A -> A -> bool)
    (eqb_spec : forall a b, eqb a b = true <-> a = b) l :
  NoDup l -> nunique eqb l = List.length l.
Proof.
  intros H. unfold nunique. apply Permutation_length.
  apply NoDup_Permutation; [apply (drop_duplicates_NoDup_id _ eqb_spec)|exact H|].
  apply (drop_duplicates_In _ eqb_spec).
Qed.

Lemma second_smallest_same_elements l1 l2 r :
  (forall x, In x l1 <-> In x l2) -> second_smallest l1 r -> second_smallest l2 r.
Proof.
  intros H (Hr & m & Hm & Hlt & Hall). split; [now apply H|].
  exists m. split; [now apply H|]. split; [exact Hlt|].
  intros x Hx. apply Hall. now apply H.
Qed.

(** ** The rate of a zip code depends on the candidates of that zip code *)

Section SameGroup.
Variables (z : Z) (rows1 rows2 : list SilverRate).
Hypothesis same_group :
  forall r, sr_zipcode r = z -> (In r rows1 <-> In r rows2).

Lemma group_of_same_group r : In r (group_of z rows1) <-> In r (group_of z rows2).
Proof.
  rewrite !group_of_In. split; intros [H E]; (split; [|exact E]); now apply (same_group r E).
Qed.

Lemma area_count_same_group : area_count z rows1 = area_count z rows2.
Proof.
  unfold area_count. apply (nunique_same_elements _ String.eqb_eq).
  intros x. rewrite !in_map_iff.
  split; intros (r & E & Hr); exists r; (split; [exact E|]); now apply group_of_same_group.
Qed.

Lemma rates_of_same_group x : In x (rates_of z rows1) <-> In x (rates_of z rows2).
Proof.
  unfold rates_of. rewrite !in_map_iff.
  split; intros (r & E & Hr); exists r; (split; [exact E|]); now apply group_of_same_group.
Qed.

Lemma rate_count_same_group : rate_count z rows1 = rate_count z rows2.
Proof.
  unfold rate_count. apply (nunique_same_elements _ Z.eqb_eq). exact rates_of_same_group.
Qed.
End SameGroup.

Lemma determinable_dec k rows : {determinable k rows} + {~ determinable k rows}.
Proof.
  unfold determinable.
  destruct (Nat.eq_dec (area_count k rows) 1), (le_dec 2 (rate_count k rows)); tauto.
Qed.

Lemma selected_rate_not_determinable zs ps z :
  ~ determinable z (silver_rates zs ps) -> selected_rate z (slcsp_frame zs ps) = None.
Proof.
  intros Hn.
  destruct (in_dec Z.eq_dec z (map sr_zipcode (silver_rates zs ps))) as [Hin|Hin].
  - destruct (determinable_or_undetermined _ _ Hin) as [Hd|Hu]; [contradiction|].
    now apply selected_rate_undetermined.
  - apply selected_rate_missing. now rewrite slcsp_frame_keys.
Qed.

Lemma selected_rate_same_group z zs ps zs' ps' :
  (forall r, sr_zipcode r = z ->
     (In r (silver_rates zs ps) <-> In r (silver_rates zs' ps'))) ->
  selected_rate z (slcsp_frame zs ps) = selected_rate z (slcsp_frame zs' ps').
Proof.
  intros H.
  pose proof (area_count_same_group z _ _ H) as Ha.
  pose proof (rate_count_same_group z _ _ H) as Hr.
  destruct (determinable_dec z (silver_rates zs ps)) as [Hd|Hn].
  - assert (Hd' : determinable z (silver_rates zs' ps'))
      by (unfold determinable in *; now rewrite <- Ha, <- Hr).
    destruct (selected_rate_determinable zs ps z Hd) as (r & -> & Hs).
    destruct (selected_rate_determinable zs' ps' z Hd') as (r' & -> & Hs').
    f_equal. eapply second_smallest_unique; [|exact Hs|exact Hs'].
    apply (rates_of_same_group z _ _ H).
  - assert (Hn' : ~ determinable z (silver_rates zs' ps'))
      by (unfold determinable in *; now rewrite <- Ha, <- Hr).
    now rewrite !selected_rate_not_determinable.
Qed.

Lemma determinable_same_group z rows1 rows2 :
  (forall r, sr_zipcode r = z -> (In r rows1 <-> In r rows2)) ->
  determinable z rows1 -> determinable z rows2.
Proof.
  intros H. unfold determinable.
  now rewrite (area_count_same_group z _ _ H), (rate_count_same_group z _ _ H).
Qed.

Lemma determinable_In k rows : determinable k rows -> In k (map sr_zipcode rows).
Proof.
  intros [_ Hr]. apply group_nonempty.
  destruct (group_of k rows) as [|r t] eqn:E; [|exists r; now left].
  unfold rate_count, nunique in Hr. rewrite E in Hr. simpl in Hr. lia.
Qed.

(** ** When line 54 raises *)

Lemma mask_In rows k :
  In k (map ct_zipcode (filter is_second_lowest (with_counts rows)))
  <-> In k (map sr_zipcode rows) /\ determinable k rows.
Proof. exact (second_lowest_keys rows k rows). Qed.

Lemma mask_empty rows :
  filter is_second_lowest (with_counts rows) = [] <-> forall z, ~ determinable z rows.
Proof.
  split.
  - intros E z Hd.
    assert (H : In z (map ct_zipcode (filter is_second_lowest (with_counts rows))))
      by (apply mask_In; split; [now apply determinable_In|exact Hd]).
    rewrite E in H. exact H.
  - intros H.
    destruct (filter is_second_lowest (with_counts rows)) as [|c t] eqn:E; [reflexivity|].
    exfalso.
    assert (Hin : In (ct_zipcode c)
                     (map ct_zipcode (filter is_second_lowest (with_counts rows))))
      by (rewrite E; now left).
    apply mask_In in Hin. exact (H _ (proj2 Hin)).
Qed.

(** [find_slcsp] returns the frame of line 55 when some zip code is
    determinable, and raises otherwise. *)
Lemma find_slcsp_cases zs ps :
  ((exists z, determinable z (silver_rates zs ps))
   /\ find_slcsp zs ps = Returns (slcsp_frame zs ps))
  \/ ((forall z, ~ determinable z (silver_rates zs ps))
      /\ find_slcsp zs ps = Raises (KeyError "level_1")).
Proof.
  unfold find_slcsp, second_lowest_df, slcsp_frame. cbv zeta.
  destruct (filter is_second_lowest (with_counts (silver_rates zs ps))) as [|c t] eqn:E.
  - right. split; [now apply mask_empty|reflexivity].
  - left. split; [|reflexivity].
    assert (Hin : In (ct_zipcode c)
                     (map ct_zipcode
                        (filter is_second_lowest (with_counts (silver_rates zs ps)))))
      by (rewrite E; now left).
    apply mask_In in Hin. exists (ct_zipcode c). apply Hin.
Qed.

Lemma find_slcsp_determinable zs ps z :
  determinable z (silver_rates zs ps) -> find_slcsp zs ps = Returns (slcsp_frame zs ps).
Proof.
  intros Hd. destruct (find_slcsp_cases zs ps) as [[_ E]|[Hn _]]; [exact E|].
  now destruct (Hn z).
Qed.

Lemma find_slcsp_none zs ps :
  (forall z, ~ determinable z (silver_rates zs ps)) ->
  find_slcsp zs ps = Raises (KeyError "level_1").
Proof.
  intros Hn. destruct (find_slcsp_cases zs ps) as [[(z & Hd) _]|[_ E]]; [|exact E].
  now destruct (Hn z).
Qed.

Lemma find_slcsp_Returns zs ps frame :
  find_slcsp zs ps = Returns frame ->
  frame = slcsp_frame zs ps /\ exists z, determinable z (silver_rates zs ps).
Proof.
  intros H. destruct (find_slcsp_cases zs ps) as [[Hd E]|[_ E]]; rewrite E in H.
  - inversion H. auto.
  - discriminate.
Qed.

Lemma output_slcsp_Returns target zs ps out :
  output_slcsp target zs ps = Returns out ->
  find_slcsp zs ps = Returns (slcsp_frame zs ps) /\
  out = map (fun t => mkSlcspRow (tr_zipcode t)
                        (selected_rate (tr_zipcode t) (slcsp_frame zs ps))) target.
Proof.
  unfold output_slcsp. intros H.
  destruct (find_slcsp zs ps) as [frame|e] eqn:E; [|discriminate].
  apply find_slcsp_Returns in E. destruct E as [-> _]. split; [reflexivity|].
  cbv zeta in H. inversion H. apply printed_rows.
Qed.

Lemma output_slcsp_determinable target zs ps z :
  determinable z (silver_rates zs ps) ->
  output_slcsp target zs ps
  = Returns (map (fun t => mkSlcspRow (tr_zipcode t)
                             (selected_rate (tr_zipcode t) (slcsp_frame zs ps))) target).
Proof.
  intros Hd. unfold output_slcsp. rewrite (find_slcsp_determinable zs ps z Hd).
  cbv zeta. now rewrite printed_rows.
Qed.

Lemma output_slcsp_none target zs ps :
  (forall z, ~ determinable z (silver_rates zs ps)) ->
  output_slcsp target zs ps = Raises (KeyError "level_1").
Proof.
  intros Hn. unfold output_slcsp. now rewrite (find_slcsp_none zs ps Hn).
Qed.

(** Two pairs of tables with the same candidates raise together or print
    the same frame. *)
Lemma output_slcsp_same_candidates target zs ps zs' ps' :
  (forall r, In r (silver_rates zs ps) <-> In r (silver_rates zs' ps')) ->
  output_slcsp target zs ps = output_slcsp target zs' ps'.
Proof.
  intros H. destruct (find_slcsp_cases zs ps) as [[(z & Hd) _]|[Hn _]].
  - assert (Hd' : determinable z (silver_rates zs' ps'))
      by (eapply determinable_same_group; [|exact Hd]; intros r _; apply H).
    rewrite (output_slcsp_determinable target zs ps z Hd).
    rewrite (output_slcsp_determinable target zs' ps' z Hd').
    f_equal. apply map_ext. intros t. f_equal.
    apply selected_rate_same_group. intros r _. apply H.
  - rewrite (output_slcsp_none target zs ps Hn).
    rewrite output_slcsp_none; [reflexivity|].
    intros z Hd. apply (Hn z).
    eapply determinable_same_group; [|exact Hd]. intros r _. symmetry. apply H.
Qed.

(** ** The selection, read on the two tables *)

Lemma silver_rates_reaches zs ps z a x :
  In (mkSilverRate z a x) (silver_rates zs ps) <->
  exists zr p, In zr zs /\ zr_zipcode zr = z /\ zip_area zr = a /\
               In p ps /\ plan_area p = a /\ is_silver (pr_metal_level p) = true /\
               pr_rate p = x.
Proof.
  rewrite silver_rates_In. unfold zip_area, plan_area.
  split; intros (zr & p & H).
  - destruct H as (Hz & Hp & Ek & Hs & E). inversion E; subst.
    exists zr, p. repeat split; auto.
  - destruct H as (Hz & <- & <- & Hp & Ek & Hs & <-).
    exists zr, p. repeat split; auto.
Qed.

Lemma reaches_silver_row zs ps z a :
  reaches_silver zs ps z a <->
  exists x, In (mkSilverRate z a x) (silver_rates zs ps).
Proof.
  unfold reaches_silver. split.
  - intros (zr & p & Hz & Ez & Ea & Hp & Ep & Hs). exists (pr_rate p).
    apply silver_rates_reaches. exists zr, p. repeat split; auto.
  - intros (x & H). apply silver_rates_reaches in H.
    destruct H as (zr & p & Hz & Ez & Ea & Hp & Ep & Hs & _).
    exists zr, p. repeat split; auto.
Qed.

Lemma area_silver_rates_In a ps x :
  In x (area_silver_rates a ps) <->
  exists p, In p ps /\ plan_area p = a /\ is_silver (pr_metal_level p) = true /\
            pr_rate p = x.
Proof.
  unfold area_silver_rates. rewrite in_map_iff. split.
  - intros (p & E & Hp). apply filter_In in Hp. destruct Hp as [Hp Hb].
    apply andb_true_iff in Hb. destruct Hb as [Hs Ea]. apply String.eqb_eq in Ea.
    exists p. auto.
  - intros (p & Hp & Ea & Hs & E). exists p. split; [exact E|].
    apply filter_In. split; [exact Hp|]. rewrite Hs. now apply String.eqb_eq.
Qed.

Section SingleArea.
Variables (zs : list ZipRow) (ps : list PlanRow) (z : Z) (a : string).
Hypothesis reaches_a : reaches_silver zs ps z a.
Hypothesis only_a : forall a', reaches_silver zs ps z a' -> a' = a.

Lemma single_area_rates x :
  In x (rates_of z (silver_rates zs ps)) <-> In x (area_silver_rates a ps).
Proof.
  unfold rates_of. rewrite in_map_iff, area_silver_rates_In. split.
  - intros ([k b y] & E & Hr). simpl in E. subst y.
    apply group_of_In in Hr. destruct Hr as [Hr Ek]. simpl in Ek. subst k.
    assert (b = a) by (apply only_a, reaches_silver_row; eauto). subst b.
    apply silver_rates_reaches in Hr.
    destruct Hr as (zr & p & _ & _ & _ & Hp & Ep & Hs & E). eauto.
  - intros (p & Hp & Ep & Hs & E).
    destruct reaches_a as (zr & _ & Hz & Ez & Ea & _).
    exists (mkSilverRate z a x). split; [reflexivity|].
    apply group_of_In. split; [|reflexivity].
    apply silver_rates_reaches. exists zr, p. repeat split; auto.
Qed.

Lemma single_area_count : area_count z (silver_rates zs ps) = 1%nat.
Proof.
  unfold area_count.
  destruct (proj1 (reaches_silver_row _ _ _ _) reaches_a) as (x & Hx).
  assert (H1 : (1 <= nunique String.eqb
                       (map sr_rate_area (group_of z (silver_rates zs ps))))%nat).
  { apply (nunique_pos _ String.eqb_eq _ a).
    apply in_map_iff. exists (mkSilverRate z a x). split; [reflexivity|].
    now apply group_of_In. }
  assert (H2 : (nunique String.eqb
                  (map sr_rate_area (group_of z (silver_rates zs ps))) <= 1)%nat).
  { apply (nunique_all_same _ String.eqb_eq _ a).
    intros b Hb. apply in_map_iff in Hb. destruct Hb as ([k b' y] & E & Hr).
    simpl in E. subst b'. apply group_of_In in Hr. destruct Hr as [Hr Ek].
    simpl in Ek. subst k. apply only_a, reaches_silver_row. eauto. }
  lia.
Qed.
End SingleArea.

Lemma determinable_single_area zs ps z :
  determinable z (silver_rates zs ps) ->
  exists a, reaches_silver zs ps z a /\
            forall a', reaches_silver zs ps z a' -> a' = a.
Proof.
  intros [Ha Hr].
  assert (Hin : exists r, In r (group_of z (silver_rates zs ps))).
  { destruct (group_of z (silver_rates zs ps)) as [|r t] eqn:E; [|exists r; now left].
    unfold rate_count, nunique in Hr. rewrite E in Hr. simpl in Hr. lia. }
  destruct Hin as ([k a x] & Hr0). pose proof Hr0 as Hg.
  apply group_of_In in Hg. destruct Hg as [Hg Ek]. simpl in Ek. subst k.
  exists a. split; [apply reaches_silver_row; eauto|].
  intros a' H'. apply reaches_silver_row in H'. destruct H' as (y & Hy).
  apply (nunique_one _ String.eqb_eq _ _ _ Ha).
  - apply in_map_iff. exists (mkSilverRate z a' y). split; [reflexivity|].
    now apply group_of_In.
  - apply in_map_iff. exists (mkSilverRate z a x). split; [reflexivity|exact Hr0].
Qed.

(** A zip code is determinable exactly when the tables give it a second
    lowest rate. *)
Lemma determinable_tables zs ps z :
  determinable z (silver_rates zs ps) <-> exists a, has_second_lowest zs ps z a.
Proof.
  split.
  - intros Hd. destruct (determinable_single_area zs ps z Hd) as (a & Hreach & Honly).
    exists a. split; [exact Hreach|]. split; [exact Honly|].
    destruct Hd as [_ Hr]. unfold rate_count in Hr.
    destruct (nunique_two_elements _ Z.eqb_eq _ Hr) as (x & y & Hx & Hy & Hxy).
    exists x, y. split; [|split; [|exact Hxy]];
      now apply (single_area_rates zs ps z a Hreach Honly).
  - intros (a & Hreach & Honly & x & y & Hx & Hy & Hxy). split.
    + now apply (single_area_count zs ps z a).
    + apply (nunique_two _ Z.eqb_eq _ x y); auto;
        now apply (single_area_rates zs ps z a Hreach Honly).
Qed.

Lemma has_second_lowest_rate zs ps z a :
  has_second_lowest zs ps z a ->
  exists r, selected_rate z (slcsp_frame zs ps) = Some r /\
            second_smallest (area_silver_rates a ps) r /\
            In (mkSlcspRow z (Some r)) (slcsp_frame zs ps).
Proof.
  intros H. pose proof H as (Hreach & Honly & _).
  assert (Hd : determinable z (silver_rates zs ps)) by (apply determinable_tables; eauto).
  destruct (selected_rate_determinable zs ps z Hd) as (r & Hsel & Hs).
  exists r. split; [exact Hsel|]. split.
  - eapply second_smallest_same_elements; [|exact Hs].
    now apply single_area_rates.
  - apply slcsp_frame_In. simpl. split; [now apply determinable_In|]. left. eauto.
Qed.

(** ** Plans and columns that do not count *)

Lemma filter_idem {A : Type} (f : A -> bool) l : filter f (filter f l) = filter f l.
Proof.
  induction l as [|a t IH]; [reflexivity|]. simpl.
  destruct (f a) eqn:E; simpl; rewrite ?E, IH; reflexivity.
Qed.

Lemma silver_rates_silver_plans zs ps :
  silver_rates zs (filter (fun p => is_silver (pr_metal_level p)) ps) = silver_rates zs ps.
Proof.
  unfold silver_rates.
  replace (key_plans (filter (fun p => is_silver (pr_metal_level p)) ps))
    with (silver_plans_spec (key_plans ps))
    by (unfold key_plans, silver_plans_spec; now rewrite filter_map_comm).
  rewrite !silver_only_join. unfold join_silver_spec, silver_plans_spec.
  now rewrite filter_idem.
Qed.

Lemma candidates_plans z k ps :
  map (fun r => mkSilverRate (zp_zipcode r) (zp_rate_area r) (zp_rate r))
    (filter (fun r => is_silver (zp_metal_level r))
       (map (join_row (mkZipKeyed (zr_zipcode z) (zr_county_code z) (zr_name z)
                         (combine_rate_area (zr_state z) (zr_rate_area z))))
          (filter (fun p => String.eqb k (pk_rate_area p)) (key_plans ps))))
  = map (fun p => mkSilverRate (zr_zipcode z)
                    (combine_rate_area (zr_state z) (zr_rate_area z)) (snd (fst p)))
      (filter (fun p =>
                 String.eqb k (combine_rate_area (fst (fst (fst p))) (snd p))
                 && is_silver (snd (fst (fst p)))) (map plan_columns_used ps)).
Proof.
  induction ps as [|p u IHu]; [reflexivity|].
  cbn [key_plans map filter pk_rate_area plan_columns_used fst snd].
  destruct (String.eqb k (combine_rate_area (pr_state p) (pr_rate_area p))) eqn:Ek.
  - cbn [map filter andb join_row zp_metal_level pk_metal_level].
    destruct (is_silver (pr_metal_level p)); cbn [map]; [f_equal|]; exact IHu.
  - cbn [andb]. exact IHu.
Qed.

Lemma candidates_group k zs ps :
  map (fun r => mkSilverRate (zp_zipcode r) (zp_rate_area r) (zp_rate r))
    (filter (fun r => is_silver (zp_metal_level r))
       (flat_map (fun z =>
                    map (join_row z)
                      (filter (fun p => String.eqb k (pk_rate_area p)) (key_plans ps)))
          (filter (fun z => String.eqb (zk_rate_area z) k) (key_zips zs))))
  = flat_map (fun z =>
      map (fun p => mkSilverRate (fst (fst z))
                      (combine_rate_area (snd (fst z)) (snd z)) (snd (fst p)))
          (filter (fun p =>
                     String.eqb k (combine_rate_area (fst (fst (fst p))) (snd p))
                     && is_silver (snd (fst (fst p)))) (map plan_columns_used ps)))
      (filter (fun z => String.eqb (combine_rate_area (snd (fst z)) (snd z)) k)
         (map zip_columns_used zs)).
Proof.
  induction zs as [|z t IH]; [reflexivity|].
  cbn [key_zips map filter zk_rate_area zip_columns_used fst snd].
  destruct (String.eqb (combine_rate_area (zr_state z) (zr_rate_area z)) k).
  - cbn [flat_map]. rewrite filter_app, map_app, candidates_plans. f_equal. exact IH.
  - exact IH.
Qed.

Lemma candidates_columns zs ps :
  drop_plan_columns (silver_only (merge_on_rate_area (key_zips zs) (key_plans ps)))
  = candidates_of_columns (map zip_columns_used zs) (map plan_columns_used ps).
Proof.
  unfold drop_plan_columns, silver_only, merge_on_rate_area, candidates_of_columns.
  replace (map zk_rate_area (key_zips zs))
    with (map (fun z => combine_rate_area (snd (fst z)) (snd z)) (map zip_columns_used zs))
    by (unfold key_zips; now rewrite !map_map).
  rewrite filter_flat_map, map_flat_map_comm.
  apply flat_map_ext. intros k. apply candidates_group.
Qed.

(** ** The rating-area key *)

Lemma has_space_uint (u : Decimal.uint) : has_space (NilEmpty.string_of_uint u) = false.
Proof. induction u; simpl; auto. Qed.

Lemma has_space_str n : has_space (str n) = false.
Proof.
  unfold str, NilZero.string_of_int, NilZero.string_of_uint.
  destruct (Z.to_int n) as [u|u]; destruct u; simpl; auto using has_space_uint.
Qed.

Lemma has_space_append s t : has_space (s ++ String " " t)%string = true.
Proof.
  induction s as [|c s IH]; simpl; [reflexivity|].
  rewrite IH. apply orb_true_r.
Qed.

Lemma to_int_not_nil n : Z.to_int n <> Decimal.Pos Decimal.Nil /\ Z.to_int n <> Decimal.Neg Decimal.Nil.
Proof.
  split; intros E; pose proof (DecimalZ.of_to n) as H; rewrite E in H;
    simpl in H; subst n; discriminate E.
Qed.

Lemma str_inj n1 n2 : str n1 = str n2 -> n1 = n2.
Proof.
  unfold str. intros E. apply DecimalZ.to_int_inj.
  apply (f_equal NilZero.int_of_string) in E.
  destruct (to_int_not_nil n1), (to_int_not_nil n2).
  rewrite !NilZero.isi in E by assumption. congruence.
Qed.

Lemma append_space_inj s1 s2 t1 t2 :
  has_space t1 = false -> has_space t2 = false ->
  (s1 ++ String " " t1)%string = (s2 ++ String " " t2)%string ->
  s1 = s2 /\ t1 = t2.
Proof.
  intros H1 H2. revert s2. induction s1 as [|c s1 IH]; intros [|d s2] E; simpl in E.
  - inversion E. auto.
  - inversion E; subst. rewrite has_space_append in H1. discriminate.
  - inversion E; subst. rewrite has_space_append in H2. discriminate.
  - inversion E; subst. destruct (IH s2) as [-> ->]; auto.
Qed.

(** ** Order of the returned frame *)

Lemma sorted_le_NoDup_lt l : StronglySorted Z.le l -> NoDup l -> StronglySorted Z.lt l.
Proof.
  induction 1 as [|x t Hs IH Hall]; intros Hnd; [constructor|].
  inversion Hnd as [|? ? Hn Hnd']; subst. constructor; [auto|].
  rewrite Forall_forall in *. intros y Hy.
  assert (x <> y) by (intros ->; contradiction).
  specialize (Hall y Hy). lia.
Qed.

Lemma last_rows_sorted (f : Z -> list Z) keys :
  StronglySorted Z.lt keys ->
  StronglySorted Z.lt
    (map fst (flat_map (fun k => match f k with
                                 | [] => []
                                 | _ => [(k, last (f k) 0)]
                                 end) keys)).
Proof.
  induction 1 as [|k t Hs IH Hall]; [constructor|].
  cbn [flat_map]. rewrite map_app.
  destruct (f k) as [|v u]; [exact IH|].
  cbn [map app fst]. constructor; [exact IH|].
  rewrite Forall_forall in *. intros y Hy.
  apply in_map_iff in Hy. destruct Hy as ((k', w) & <- & Hy).
  apply in_flat_map in Hy. destruct Hy as (k'' & Hk & Hy).
  destruct (f k''); [contradiction|]. destruct Hy as [Hy|[]].
  inversion Hy; subst. simpl. now apply Hall.
Qed.

(** * The claims *)

(** C1: zip code 33333 is in the deduplicated candidate relation, with one
    rating area and one distinct rate, so its rate should be the missing
    value; on these tables, where no zip code has a second lowest rate, line
    54 raises [KeyError] and neither [find_slcsp] nor [output_slcsp] gives it
    a rate at all. *)
Theorem C1_single_rate_zip_raises :
  In 33333 (map sr_zipcode (silver_rates zips_33333 plans_33333)) /\
  area_count 33333 (silver_rates zips_33333 plans_33333) = 1%nat /\
  rate_count 33333 (silver_rates zips_33333 plans_33333) = 1%nat /\
  find_slcsp zips_33333 plans_33333 = Raises (KeyError "level_1") /\
  output_slcsp [ mkTargetRow 33333 None ] zips_33333 plans_33333
    = Raises (KeyError "level_1").
Proof.
  split; [vm_compute; auto|]. repeat split; vm_compute; reflexivity.
Qed.

(** C2: for a zip code that reaches Silver plans in one rating area only,
    where those plans have two or more distinct rates, [find_slcsp] returns
    a frame and the rate it selects is the second-smallest element of the set
    of distinct rates of the Silver plans of that area; the selection is the
    same when the rows of the two tables come in any other order and when
    plan rows are added that carry a (rating area, rate) pair a Silver plan
    already has. *)
Theorem C2_second_smallest_stable zs ps zs' ps' z a :
  reaches_silver zs ps z a ->
  (forall a', reaches_silver zs ps z a' -> a' = a) ->
  (exists x y, In x (area_silver_rates a ps) /\ In y (area_silver_rates a ps) /\ x <> y) ->
  Permutation zs zs' ->
  reordered_with_duplicates ps ps' ->
  exists r frame frame',
    second_smallest (area_silver_rates a ps) r /\
    find_slcsp zs ps = Returns frame /\
    In (mkSlcspRow z (Some r)) frame /\
    selected_rate z frame = Some r /\
    find_slcsp zs' ps' = Returns frame' /\
    selected_rate z frame' = Some r.
Proof.
  intros Hreach Honly Htwo Hz Hp.
  pose proof (silver_rates_variant zs ps zs' ps' Hz Hp) as Hrows.
  assert (Hd : determinable z (silver_rates zs ps))
    by (apply determinable_tables; exists a; repeat split; assumption).
  assert (Hd' : determinable z (silver_rates zs' ps'))
    by (eapply determinable_same_group; [|exact Hd]; intros r _; apply Hrows).
  destruct (has_second_lowest_rate zs ps z a) as (r & Hsel & Hs & Hin);
    [repeat split; assumption|].
  exists r, (slcsp_frame zs ps), (slcsp_frame zs' ps').
  split; [exact Hs|]. split; [now apply (find_slcsp_determinable zs ps z)|].
  split; [exact Hin|]. split; [exact Hsel|].
  split; [now apply (find_slcsp_determinable zs' ps' z)|].
  rewrite <- Hsel. symmetry. apply selected_rate_same_group. intros x _. apply Hrows.
Qed.

Lemma C2_second_smallest_stable_witness :
  reaches_silver zips_ex plans_ex 11111 "NY 1" /\
  Permutation zips_ex zips_ex' /\
  reordered_with_duplicates plans_ex plans_ex' /\
  exists r frame frame',
    second_smallest (area_silver_rates "NY 1" plans_ex) r /\
    find_slcsp zips_ex plans_ex = Returns frame /\
    In (mkSlcspRow 11111 (Some r)) frame /\
    selected_rate 11111 frame = Some r /\
    find_slcsp zips_ex' plans_ex' = Returns frame' /\
    selected_rate 11111 frame' = Some r.
Proof.
  assert (Hreach : reaches_silver zips_ex plans_ex 11111 "NY 1").
  { exists (mkZipRow 11111 "NY" 36001 "Albany" 1), (mkPlanRow "P1" "NY" "Silver" 20000 1).
    repeat split; simpl; auto. }
  assert (Honly : forall a', reaches_silver zips_ex plans_ex 11111 a' -> a' = "NY 1").
  { intros a' (zr & p & Hz & Ez & Ea & _). simpl in Hz.
    repeat match goal with
           | D : _ \/ _ |- _ => destruct D
           | D : False |- _ => destruct D
           end; subst; try discriminate Ez; reflexivity. }
  assert (Htwo : exists x y, In x (area_silver_rates "NY 1" plans_ex) /\
                             In y (area_silver_rates "NY 1" plans_ex) /\ x <> y).
  { exists 20000, 15000. split; [vm_compute; auto|]. split; [vm_compute; auto|discriminate]. }
  assert (Hz : Permutation zips_ex zips_ex') by apply perm_swap.
  assert (Hp : reordered_with_duplicates plans_ex plans_ex').
  { exists [mkPlanRow "P8" "NY" "Silver" 20000 1]. split.
    - apply Permutation_app_comm.
    - intros e [<-|[]]. exists (mkPlanRow "P1" "NY" "Silver" 20000 1).
      split; [simpl; auto|]. repeat split. }
  split; [exact Hreach|]. split; [exact Hz|]. split; [exact Hp|].
  exact (C2_second_smallest_stable zips_ex plans_ex zips_ex' plans_ex' 11111 "NY 1"
           Hreach Honly Htwo Hz Hp).
Defined.

(** C3: with the target list 44444, 33333 and tables in which no zip code
    has a second lowest rate, [output_slcsp] raises [KeyError] at line 54
    and prints no row, where the two requested rows should be printed with
    the missing value. *)
Theorem C3_requested_rows_not_printed :
  output_slcsp [ mkTargetRow 44444 None; mkTargetRow 33333 None ] zips_33333 plans_33333
    = Raises (KeyError "level_1")
  /\ forall out,
       output_slcsp [ mkTargetRow 44444 None; mkTargetRow 33333 None ]
         zips_33333 plans_33333 <> Returns out.
Proof.
  assert (E : output_slcsp [ mkTargetRow 44444 None; mkTargetRow 33333 None ]
                zips_33333 plans_33333 = Raises (KeyError "level_1"))
    by (vm_compute; reflexivity).
  split; [exact E|]. intros out. rewrite E. discriminate.
Qed.

(** C4: the transform raises on well-typed tables: [output_slcsp] raises
    [KeyError] at line 54 whenever no zip code of the tables has a second
    lowest rate, and so for a zip code with a single rate, for a zip code
    with two rating areas and for a zip code missing from the zip table,
    where the missing value should be printed. *)
Theorem C4_degrading_cases_raise :
  (forall target zs ps,
     ~ (exists z a, has_second_lowest zs ps z a) ->
     output_slcsp target zs ps = Raises (KeyError "level_1")) /\
  output_slcsp [ mkTargetRow 33333 None ] zips_33333 plans_33333
    = Raises (KeyError "level_1") /\
  output_slcsp [ mkTargetRow 22222 None ] zips_22222 plans_22222
    = Raises (KeyError "level_1") /\
  output_slcsp [ mkTargetRow 44444 None ] zips_33333 plans_33333
    = Raises (KeyError "level_1").
Proof.
  split.
  - intros target zs ps H. apply output_slcsp_none. intros z Hd.
    apply determinable_tables in Hd. destruct Hd as (a & Ha). apply H. eauto.
  - repeat split; vm_compute; reflexivity.
Qed.

(** C5: a frame [find_slcsp] returns is the determinable group followed by
    the undetermined group; it has at most one row per zip code, no zip code
    is in both groups, and no row satisfies both masks. *)
Theorem C5_groups_disjoint zs ps frame :
  find_slcsp zs ps = Returns frame ->
  (exists second_lowest,
     second_lowest_df (with_counts (silver_rates zs ps)) = Returns second_lowest /\
     frame = second_lowest ++ no_lowest_df (with_counts (silver_rates zs ps)) /\
     forall z, ~ (In z (map zipcode second_lowest)
                  /\ In z (map zipcode (no_lowest_df (with_counts (silver_rates zs ps))))))
  /\ NoDup (map zipcode frame)
  /\ (forall c, is_second_lowest c && is_no_lowest c = false).
Proof.
  intros H. split; [|split].
  - unfold find_slcsp in H. cbv zeta in H.
    destruct (second_lowest_df (with_counts (silver_rates zs ps))) as [sl|e] eqn:E;
      [|discriminate].
    inversion H; subst frame. exists sl. split; [reflexivity|]. split; [reflexivity|].
    assert (Esl : sl = second_lowest_rows (with_counts (silver_rates zs ps))).
    { unfold second_lowest_df in E.
      destruct (filter is_second_lowest (with_counts (silver_rates zs ps)));
        [discriminate|now inversion E]. }
    subst sl. intros z [H1 H2]. apply in_map_iff in H1, H2.
    destruct H1 as (r1 & <- & H1), H2 as (r2 & E2 & H2).
    apply (second_lowest_rows_In _ (silver_rates_NoDup zs ps)) in H1.
    apply no_lowest_df_In in H2. rewrite E2 in H2.
    eapply determinable_not_undetermined; [apply H1|apply H2].
  - apply find_slcsp_Returns in H. destruct H as [-> _]. apply slcsp_frame_NoDup.
  - intros c. unfold is_second_lowest, is_no_lowest.
    destruct (unique_area_count c) as [|[|a]], (unique_rate_count c) as [|[|r]]; reflexivity.
Qed.

Lemma C5_groups_disjoint_witness :
  find_slcsp zips_ex plans_ex
    = Returns [ mkSlcspRow 11111 (Some 20000); mkSlcspRow 22222 None; mkSlcspRow 33333 None ]
  /\ NoDup (map zipcode
              [ mkSlcspRow 11111 (Some 20000); mkSlcspRow 22222 None; mkSlcspRow 33333 None ]).
Proof.
  assert (E : find_slcsp zips_ex plans_ex
              = Returns [ mkSlcspRow 11111 (Some 20000); mkSlcspRow 22222 None;
                          mkSlcspRow 33333 None ])
    by (vm_compute; reflexivity).
  split; [exact E|].
  exact (proj1 (proj2 (C5_groups_disjoint zips_ex plans_ex _ E))).
Defined.

(** C6: with zip code 11111 in the single rating area NY 1 and Silver
    plans of NY 1 at 200.00, 150.00 and 150.00, the join gives three
    candidate rows, [drop_duplicates] leaves the two distinct ones, and the
    selected rate is 200.00; on the three rows the two smallest values would
    both be 150.00. *)
Theorem C6_duplicate_rate_not_ranked_second :
  drop_plan_columns
    (silver_only (merge_on_rate_area (key_zips zips_11111) (key_plans plans_11111)))
    = [ mkSilverRate 11111 "NY 1" 20000; mkSilverRate 11111 "NY 1" 15000;
        mkSilverRate 11111 "NY 1" 15000 ]
  /\ silver_rates zips_11111 plans_11111
     = [ mkSilverRate 11111 "NY 1" 20000; mkSilverRate 11111 "NY 1" 15000 ]
  /\ nsmallest 2 (rates_of 11111 (silver_rates zips_11111 plans_11111)) = [15000; 20000]
  /\ nsmallest 2 [20000; 15000; 15000] = [15000; 15000]
  /\ find_slcsp zips_11111 plans_11111 = Returns [ mkSlcspRow 11111 (Some 20000) ]
  /\ output_slcsp [ mkTargetRow 11111 None ] zips_11111 plans_11111
     = Returns [ mkSlcspRow 11111 (Some 20000) ].
Proof. repeat split; vm_compute; reflexivity. Qed.

(** C7: two target tables with the same zip codes in the same order give
    the same outcome, the same printed frame or the same exception, whatever
    their incoming rates; every printed rate is the one computed by
    [find_slcsp]. *)
Theorem C7_incoming_rates_ignored target1 target2 zs ps :
  map tr_zipcode target1 = map tr_zipcode target2 ->
  output_slcsp target1 zs ps = output_slcsp target2 zs ps /\
  (forall out row, output_slcsp target1 zs ps = Returns out -> In row out ->
     exists frame, find_slcsp zs ps = Returns frame /\
                   rate row = selected_rate (zipcode row) frame).
Proof.
  intros H. split.
  - unfold output_slcsp. destruct (find_slcsp zs ps); [|reflexivity].
    cbv zeta. now rewrite H.
  - intros out row Hout Hrow. apply output_slcsp_Returns in Hout.
    destruct Hout as [E ->]. exists (slcsp_frame zs ps). split; [exact E|].
    apply in_map_iff in Hrow. destruct Hrow as (t & <- & _). reflexivity.
Qed.

Lemma C7_incoming_rates_ignored_witness :
  map tr_zipcode target_ex = map tr_zipcode target_ex' /\
  output_slcsp target_ex zips_ex plans_ex = output_slcsp target_ex' zips_ex plans_ex.
Proof.
  split; [reflexivity|].
  exact (proj1 (C7_incoming_rates_ignored target_ex target_ex' zips_ex plans_ex eq_refl)).
Defined.

(** C9: zip code 55555 is in the zip table and its rating area has a Gold
    plan only; the candidate relation is empty, line 54 raises [KeyError],
    and the zip code is not printed with the missing value: nothing is
    printed. *)
Theorem C9_no_silver_plan_raises :
  In 55555 (map zr_zipcode zips_55555) /\
  silver_rates zips_55555 plans_55555 = [] /\
  find_slcsp zips_55555 plans_55555 = Raises (KeyError "level_1") /\
  output_slcsp [ mkTargetRow 55555 None ] zips_55555 plans_55555
    = Raises (KeyError "level_1").
Proof.
  split; [simpl; auto|]. repeat split; vm_compute; reflexivity.
Qed.

(** C10: filtering the joined frame to Silver, as [find_slcsp] does, gives
    the same frame, rows and order, as joining the zip rows with the Silver
    subset of the plans, as the specification describes it; so the
    candidate relation is the same on both routes. *)
Theorem C10_filter_after_join_refines zs ps :
  silver_only (merge_on_rate_area (key_zips zs) (key_plans ps))
    = join_silver_spec (key_zips zs) (key_plans ps)
  /\ silver_rates zs ps
     = drop_duplicates same_triple
         (drop_plan_columns (join_silver_spec (key_zips zs) (key_plans ps))).
Proof.
  split; [apply silver_only_join|].
  unfold silver_rates. now rewrite silver_only_join.
Qed.

(** * Further properties of [find_slcsp] and [output_slcsp] *)

(** X1: the outcome of [output_slcsp] does not depend on the row order of
    the zip table and of the plan table, nor on further plan rows that repeat
    the (rating area, rate) pair of a Silver plan: the same frame is printed,
    in all its rows, or the same exception is raised. *)
Theorem X1_output_invariant_under_reordering target zs ps zs' ps' :
  Permutation zs zs' ->
  reordered_with_duplicates ps ps' ->
  output_slcsp target zs' ps' = output_slcsp target zs ps.
Proof.
  intros Hz Hp. apply output_slcsp_same_candidates. intros r. symmetry.
  now apply silver_rates_variant.
Qed.

Lemma X1_output_invariant_under_reordering_witness :
  Permutation zips_ex zips_ex' /\
  reordered_with_duplicates plans_ex plans_ex' /\
  output_slcsp target_ex zips_ex' plans_ex' = output_slcsp target_ex zips_ex plans_ex.
Proof.
  assert (Hz : Permutation zips_ex zips_ex') by apply perm_swap.
  assert (Hp : reordered_with_duplicates plans_ex plans_ex').
  { exists [mkPlanRow "P8" "NY" "Silver" 20000 1]. split.
    - apply Permutation_app_comm.
    - intros e [<-|[]]. exists (mkPlanRow "P1" "NY" "Silver" 20000 1).
      split; [simpl; auto|]. repeat split. }
  split; [exact Hz|]. split; [exact Hp|].
  exact (X1_output_invariant_under_reordering target_ex zips_ex plans_ex zips_ex' plans_ex' Hz Hp).
Defined.

(** X2: when [find_slcsp] returns a frame on the zip rows of zip code [z]
    alone, it returns a frame on the whole zip table too, and the two frames
    give [z] the same rate. *)
Theorem X2_rate_independent_of_other_zip_codes zs ps z frame_z :
  find_slcsp (filter (fun zr => zr_zipcode zr =? z) zs) ps = Returns frame_z ->
  exists frame, find_slcsp zs ps = Returns frame /\
                selected_rate z frame = selected_rate z frame_z.
Proof.
  intros H. apply find_slcsp_Returns in H. destruct H as [-> (z0 & Hd0)].
  set (zs_z := filter (fun zr => zr_zipcode zr =? z) zs) in *.
  assert (Hsame : forall r, sr_zipcode r = z ->
                    (In r (silver_rates zs_z ps) <-> In r (silver_rates zs ps))).
  { intros r E. rewrite !silver_rates_In.
    split; intros (zr & p & Hz & Hp & Ek & Hs & ->).
    - apply filter_In in Hz. destruct Hz as [Hz _]. exists zr, p. auto.
    - exists zr, p. repeat split; auto. apply filter_In. split; [exact Hz|].
      simpl in E. now apply Z.eqb_eq. }
  assert (z0 = z).
  { apply determinable_In in Hd0. apply in_map_iff in Hd0.
    destruct Hd0 as (r & <- & Hr). apply silver_rates_In in Hr.
    destruct Hr as (zr & p & Hz & _ & _ & _ & ->). simpl.
    apply filter_In in Hz. destruct Hz as [_ Hz]. now apply Z.eqb_eq. }
  subst z0.
  assert (Hd : determinable z (silver_rates zs ps))
    by (eapply determinable_same_group; [exact Hsame|exact Hd0]).
  exists (slcsp_frame zs ps). split; [now apply (find_slcsp_determinable zs ps z)|].
  symmetry. now apply selected_rate_same_group.
Qed.

Lemma X2_rate_independent_of_other_zip_codes_witness :
  find_slcsp (filter (fun zr => zr_zipcode zr =? 11111) zips_ex) plans_ex
    = Returns [ mkSlcspRow 11111 (Some 20000) ]
  /\ exists frame, find_slcsp zips_ex plans_ex = Returns frame /\
                   selected_rate 11111 frame
                   = selected_rate 11111 [ mkSlcspRow 11111 (Some 20000) ].
Proof.
  assert (E : find_slcsp (filter (fun zr => zr_zipcode zr =? 11111) zips_ex) plans_ex
              = Returns [ mkSlcspRow 11111 (Some 20000) ])
    by (vm_compute; reflexivity).
  split; [exact E|].
  exact (X2_rate_independent_of_other_zip_codes zips_ex plans_ex 11111 _ E).
Defined.

(** X3: in a frame that [find_slcsp] returns, a zip code has a row exactly
    when one of its zip rows lies in a rating area that has a Silver plan. *)
Theorem X3_frame_keys zs ps frame z :
  find_slcsp zs ps = Returns frame ->
  (In z (map zipcode frame) <-> exists a, reaches_silver zs ps z a).
Proof.
  intros H. apply find_slcsp_Returns in H. destruct H as [-> _].
  rewrite slcsp_frame_keys, in_map_iff. split.
  - intros ([k a x] & E & H). simpl in E. subst k.
    exists a. apply reaches_silver_row. eauto.
  - intros (a & H). apply reaches_silver_row in H. destruct H as (x & H).
    exists (mkSilverRate z a x). auto.
Qed.

Lemma X3_frame_keys_witness :
  find_slcsp zips_ex plans_ex
    = Returns [ mkSlcspRow 11111 (Some 20000); mkSlcspRow 22222 None; mkSlcspRow 33333 None ]
  /\ ~ exists a, reaches_silver zips_ex plans_ex 55555 a.
Proof.
  assert (E : find_slcsp zips_ex plans_ex
              = Returns [ mkSlcspRow 11111 (Some 20000); mkSlcspRow 22222 None;
                          mkSlcspRow 33333 None ])
    by (vm_compute; reflexivity).
  split; [exact E|]. intros H.
  apply (X3_frame_keys zips_ex plans_ex _ 55555 E) in H. simpl in H.
  repeat destruct H as [H|H]; try discriminate H; exact H.
Defined.

(** X4: when the zip rows of a zip code reach Silver plans in one rating
    area only and the Silver plans of that area have two different rates,
    [find_slcsp] returns a frame, and the rate it selects for the zip code
    is the second-smallest of the distinct rates of the Silver plans of that
    area. *)
Theorem X4_rate_is_area_second_lowest zs ps z a :
  reaches_silver zs ps z a ->
  (forall a', reaches_silver zs ps z a' -> a' = a) ->
  (exists x y, In x (area_silver_rates a ps) /\ In y (area_silver_rates a ps) /\ x <> y) ->
  exists r frame, find_slcsp zs ps = Returns frame /\
                  selected_rate z frame = Some r /\
                  second_smallest (area_silver_rates a ps) r.
Proof.
  intros Hreach Honly Htwo.
  assert (H : has_second_lowest zs ps z a) by (repeat split; assumption).
  destruct (has_second_lowest_rate zs ps z a H) as (r & Hsel & Hs & _).
  exists r, (slcsp_frame zs ps). split; [|split; assumption].
  apply (find_slcsp_determinable zs ps z). apply determinable_tables. eauto.
Qed.

Lemma X4_rate_is_area_second_lowest_witness :
  reaches_silver zips_ex plans_ex 11111 "NY 1" /\
  exists r frame, find_slcsp zips_ex plans_ex = Returns frame /\
                  selected_rate 11111 frame = Some r /\
                  second_smallest (area_silver_rates "NY 1" plans_ex) r.
Proof.
  assert (Hreach : reaches_silver zips_ex plans_ex 11111 "NY 1").
  { exists (mkZipRow 11111 "NY" 36001 "Albany" 1), (mkPlanRow "P1" "NY" "Silver" 20000 1).
    repeat split; simpl; auto. }
  assert (Honly : forall a', reaches_silver zips_ex plans_ex 11111 a' -> a' = "NY 1").
  { intros a' (zr & p & Hz & Ez & Ea & _). simpl in Hz.
    repeat match goal with
           | D : _ \/ _ |- _ => destruct D
           | D : False |- _ => destruct D
           end; subst; try discriminate Ez; reflexivity. }
  split; [exact Hreach|].
  apply (X4_rate_is_area_second_lowest zips_ex plans_ex 11111 "NY 1" Hreach Honly).
  exists 20000, 15000. repeat split; [vm_compute; auto|vm_compute; auto|discriminate].
Defined.

(** X5: every rate that is printed is the second lowest Silver rate of a
    rating area: the zip code of the row reaches Silver plans in exactly one
    rating area, the rate is the rate of a Silver plan of that area, exactly
    one distinct Silver rate of the area is lower, and no other is. *)
Theorem X5_printed_rate_sound target zs ps out row r :
  output_slcsp target zs ps = Returns out ->
  In row out ->
  rate row = Some r ->
  exists a, reaches_silver zs ps (zipcode row) a /\
            (forall a', reaches_silver zs ps (zipcode row) a' -> a' = a) /\
            second_smallest (area_silver_rates a ps) r.
Proof.
  intros Hout Hrow Hr. apply output_slcsp_Returns in Hout. destruct Hout as [_ ->].
  apply in_map_iff in Hrow. destruct Hrow as (t & <- & _). simpl in *.
  set (z := tr_zipcode t) in *.
  destruct (determinable_dec z (silver_rates zs ps)) as [Hd|Hn].
  - apply determinable_tables in Hd. destruct Hd as (a & Ha).
    destruct (has_second_lowest_rate zs ps z a Ha) as (r' & Hsel & Hs & _).
    assert (r' = r) by congruence. subst r'.
    destruct Ha as (Hreach & Honly & _). exists a. auto.
  - rewrite (selected_rate_not_determinable zs ps z Hn) in Hr. discriminate.
Qed.

Lemma X5_printed_rate_sound_witness :
  (exists out, output_slcsp target_ex zips_ex plans_ex = Returns out /\
               In (mkSlcspRow 11111 (Some 20000)) out) /\
  exists a, reaches_silver zips_ex plans_ex 11111 a /\
            (forall a', reaches_silver zips_ex plans_ex 11111 a' -> a' = a) /\
            second_smallest (area_silver_rates a plans_ex) 20000.
Proof.
  destruct (output_slcsp target_ex zips_ex plans_ex) as [out|e] eqn:E;
    [|vm_compute in E; discriminate E].
  assert (H : In (mkSlcspRow 11111 (Some 20000)) out)
    by (vm_compute in E; inversion E; simpl; auto).
  split; [exists out; auto|].
  exact (X5_printed_rate_sound target_ex zips_ex plans_ex out _ 20000 E H eq_refl).
Defined.

(** X6: in a frame that [find_slcsp] returns, two zip codes that each
    reach Silver plans in the same single rating area get the same rate,
    defined or missing. *)
Theorem X6_same_area_same_rate zs ps frame z1 z2 a :
  find_slcsp zs ps = Returns frame ->
  reaches_silver zs ps z1 a ->
  (forall a', reaches_silver zs ps z1 a' -> a' = a) ->
  reaches_silver zs ps z2 a ->
  (forall a', reaches_silver zs ps z2 a' -> a' = a) ->
  selected_rate z1 frame = selected_rate z2 frame.
Proof.
  intros Hf H1 O1 H2 O2. apply find_slcsp_Returns in Hf. destruct Hf as [-> _].
  pose proof (single_area_rates zs ps z1 a H1 O1) as R1.
  pose proof (single_area_rates zs ps z2 a H2 O2) as R2.
  assert (R : forall x, In x (rates_of z1 (silver_rates zs ps))
                        <-> In x (rates_of z2 (silver_rates zs ps)))
    by (intros x; rewrite R1, R2; tauto).
  assert (Hc : rate_count z1 (silver_rates zs ps) = rate_count z2 (silver_rates zs ps))
    by (apply (nunique_same_elements _ Z.eqb_eq); exact R).
  pose proof (single_area_count zs ps z1 a H1 O1) as A1.
  pose proof (single_area_count zs ps z2 a H2 O2) as A2.
  destruct (determinable_dec z1 (silver_rates zs ps)) as [Hd|Hn].
  - assert (Hd' : determinable z2 (silver_rates zs ps))
      by (unfold determinable in *; rewrite A2, <- Hc; tauto).
    destruct (selected_rate_determinable zs ps z1 Hd) as (r & -> & Hs).
    destruct (selected_rate_determinable zs ps z2 Hd') as (r' & -> & Hs').
    f_equal. eapply second_smallest_unique; [exact R|exact Hs|exact Hs'].
  - assert (Hn' : ~ determinable z2 (silver_rates zs ps))
      by (unfold determinable in *; rewrite A2, <- Hc; rewrite A1 in Hn; tauto).
    now rewrite !selected_rate_not_determinable.
Qed.

Lemma X6_same_area_same_rate_witness :
  reaches_silver zips_same_area plans_11111 11111 "NY 1" /\
  reaches_silver zips_same_area plans_11111 66666 "NY 1" /\
  exists frame, find_slcsp zips_same_area plans_11111 = Returns frame /\
                selected_rate 11111 frame = selected_rate 66666 frame.
Proof.
  assert (H1 : reaches_silver zips_same_area plans_11111 11111 "NY 1").
  { exists (mkZipRow 11111 "NY" 36001 "Albany" 1), (mkPlanRow "P1" "NY" "Silver" 20000 1).
    repeat split; simpl; auto. }
  assert (H2 : reaches_silver zips_same_area plans_11111 66666 "NY 1").
  { exists (mkZipRow 66666 "NY" 36005 "Kings" 1), (mkPlanRow "P1" "NY" "Silver" 20000 1).
    repeat split; simpl; auto. }
  assert (O : forall z a', reaches_silver zips_same_area plans_11111 z a' -> a' = "NY 1").
  { intros z a' (zr & p & Hz & _ & Ea & _). simpl in Hz.
    destruct Hz as [<-|[<-|[]]]; now subst a'. }
  split; [exact H1|]. split; [exact H2|].
  destruct (find_slcsp zips_same_area plans_11111) as [frame|e] eqn:E;
    [|vm_compute in E; discriminate E].
  exists frame. split; [reflexivity|].
  exact (X6_same_area_same_rate zips_same_area plans_11111 frame 11111 66666 "NY 1"
           E H1 (O 11111) H2 (O 66666)).
Defined.

(** X7: a zip code that reaches Silver plans in two different rating areas
    has no rate in any row that is printed, whatever the rates of those
    plans. *)
Theorem X7_two_areas_no_rate target zs ps out z a1 a2 :
  output_slcsp target zs ps = Returns out ->
  reaches_silver zs ps z a1 ->
  reaches_silver zs ps z a2 ->
  a1 <> a2 ->
  forall row, In row out -> zipcode row = z -> rate row = None.
Proof.
  intros Hout H1 H2 Hne row Hrow E.
  apply output_slcsp_Returns in Hout. destruct Hout as [_ ->].
  apply in_map_iff in Hrow. destruct Hrow as (t & <- & _). simpl in *. rewrite E.
  apply selected_rate_undetermined. left. unfold area_count.
  apply reaches_silver_row in H1, H2. destruct H1 as (x1 & H1), H2 as (x2 & H2).
  apply (nunique_two _ String.eqb_eq _ a1 a2); [| |exact Hne].
  - apply in_map_iff. exists (mkSilverRate z a1 x1). split; [reflexivity|].
    now apply group_of_In.
  - apply in_map_iff. exists (mkSilverRate z a2 x2). split; [reflexivity|].
    now apply group_of_In.
Qed.

Lemma X7_two_areas_no_rate_witness :
  reaches_silver zips_ex plans_ex 22222 "NY 1" /\
  reaches_silver zips_ex plans_ex 22222 "NY 2" /\
  "NY 1" <> "NY 2" /\
  exists out, output_slcsp target_ex zips_ex plans_ex = Returns out /\
              In 22222 (map zipcode out) /\
              forall row, In row out -> zipcode row = 22222 -> rate row = None.
Proof.
  assert (H1 : reaches_silver zips_ex plans_ex 22222 "NY 1").
  { exists (mkZipRow 22222 "NY" 36001 "Albany" 1), (mkPlanRow "P1" "NY" "Silver" 20000 1).
    repeat split; simpl; auto. }
  assert (H2 : reaches_silver zips_ex plans_ex 22222 "NY 2").
  { exists (mkZipRow 22222 "NY" 36003 "Bronx" 2), (mkPlanRow "P5" "NY" "Silver" 17000 2).
    repeat split; simpl; auto 10. }
  assert (Hne : "NY 1" <> "NY 2") by discriminate.
  split; [exact H1|]. split; [exact H2|]. split; [exact Hne|].
  destruct (output_slcsp target_ex zips_ex plans_ex) as [out|e] eqn:E;
    [|vm_compute in E; discriminate E].
  exists out. split; [reflexivity|].
  split; [vm_compute in E; inversion E; simpl; auto 10|].
  exact (X7_two_areas_no_rate target_ex zips_ex plans_ex out 22222 "NY 1" "NY 2" E H1 H2 Hne).
Defined.

(** X8: a zip code all of whose reachable Silver plans have one and the
    same rate has no rate in any row that is printed. *)
Theorem X8_single_rate_no_rate target zs ps out z c :
  output_slcsp target zs ps = Returns out ->
  (forall zr p, In zr zs -> zr_zipcode zr = z -> In p ps ->
     plan_area p = zip_area zr -> is_silver (pr_metal_level p) = true ->
     pr_rate p = c) ->
  forall row, In row out -> zipcode row = z -> rate row = None.
Proof.
  intros Hout H row Hrow E.
  apply output_slcsp_Returns in Hout. destruct Hout as [_ ->].
  apply in_map_iff in Hrow. destruct Hrow as (t & <- & _). simpl in *. rewrite E.
  apply selected_rate_not_determinable. intros [_ Hr].
  assert (Hle : (rate_count z (silver_rates zs ps) <= 1)%nat); [|lia].
  unfold rate_count. apply (nunique_all_same _ Z.eqb_eq _ c).
  intros x Hx. apply in_map_iff in Hx. destruct Hx as ([k a y] & Ey & Hg).
  simpl in Ey. subst y. apply group_of_In in Hg. destruct Hg as [Hg Ek].
  simpl in Ek. subst k. apply silver_rates_reaches in Hg.
  destruct Hg as (zr & p & Hz & Ez & Ea & Hp & Ep & Hs & <-).
  apply (H zr p); auto. congruence.
Qed.

Lemma X8_single_rate_no_rate_witness :
  exists out, output_slcsp target_ex zips_ex plans_ex = Returns out /\
              In 33333 (map zipcode out) /\
              forall row, In row out -> zipcode row = 33333 -> rate row = None.
Proof.
  destruct (output_slcsp target_ex zips_ex plans_ex) as [out|e] eqn:E;
    [|vm_compute in E; discriminate E].
  exists out. split; [reflexivity|].
  split; [vm_compute in E; inversion E; simpl; auto 10|].
  apply (X8_single_rate_no_rate target_ex zips_ex plans_ex out 33333 18000 E).
  intros zr p Hz Ez Hp Ea Hs. simpl in Hz, Hp.
  repeat match goal with
         | D : _ \/ _ |- _ => destruct D
         | D : False |- _ => destruct D
         end; subst; try discriminate Ez; try discriminate Ea; try discriminate Hs;
    reflexivity.
Defined.

(** X9: plans of another metal level than Silver have no influence: the
    outcome of [find_slcsp], the frame with its rows and their order or the
    exception, is the same when they are removed from the plan table. *)
Theorem X9_other_metal_levels_ignored zs ps :
  find_slcsp zs (filter (fun p => is_silver (pr_metal_level p)) ps) = find_slcsp zs ps.
Proof.
  unfold find_slcsp. now rewrite silver_rates_silver_plans.
Qed.

(** X10: the county code and the name of a zip row and the identifier of
    a plan have no influence: two pairs of tables that agree, row by row, on
    the zip code, state and area number, and on the state, metal level, rate
    and area number, give the same outcome of [find_slcsp]. *)
Theorem X10_dropped_columns_ignored zs ps zs' ps' :
  map zip_columns_used zs = map zip_columns_used zs' ->
  map plan_columns_used ps = map plan_columns_used ps' ->
  find_slcsp zs ps = find_slcsp zs' ps'.
Proof.
  intros Hz Hp. unfold find_slcsp, silver_rates.
  now rewrite !candidates_columns, Hz, Hp.
Qed.

Lemma X10_dropped_columns_ignored_witness :
  map zip_columns_used zips_ex = map zip_columns_used zips_ex_relabelled /\
  map plan_columns_used plans_ex = map plan_columns_used plans_ex_relabelled /\
  find_slcsp zips_ex plans_ex = find_slcsp zips_ex_relabelled plans_ex_relabelled.
Proof.
  split; [reflexivity|]. split; [reflexivity|].
  exact (X10_dropped_columns_ignored zips_ex plans_ex zips_ex_relabelled
           plans_ex_relabelled eq_refl eq_refl).
Defined.

(** X11: the combined key of lines 21 and 24 identifies the rating area:
    two keys are equal exactly when the states are equal and the area
    numbers are equal, so the merge of line 28 pairs a zip row with the plan
    rows of its own state and area number and with no other. *)
Theorem X11_rate_area_key_injective s1 n1 s2 n2 :
  combine_rate_area s1 n1 = combine_rate_area s2 n2 <-> s1 = s2 /\ n1 = n2.
Proof.
  split; [|now intros [-> ->]].
  unfold combine_rate_area. intros E.
  apply append_space_inj in E; try apply has_space_str.
  destruct E as [-> E]. split; [reflexivity|]. now apply str_inj.
Qed.

(** X12: in a frame that [find_slcsp] returns the rows with a rate come
    first, in strictly ascending order of zip code, and the rows that follow
    them all have the missing value. *)
Theorem X12_frame_order zs ps frame :
  find_slcsp zs ps = Returns frame ->
  exists with_rate without_rate,
    frame = with_rate ++ without_rate /\
    StronglySorted Z.lt (map zipcode with_rate) /\
    Forall (fun row => rate row <> None) with_rate /\
    Forall (fun row => rate row = None) without_rate.
Proof.
  intros H. apply find_slcsp_Returns in H. destruct H as [-> _].
  exists (second_lowest_rows (with_counts (silver_rates zs ps))),
         (no_lowest_df (with_counts (silver_rates zs ps))).
  split; [reflexivity|]. split; [|split].
  - unfold second_lowest_rows, groupby_nsmallest. rewrite map_map. cbn [zipcode].
    rewrite drop_duplicates_last_grouped
      with (f := fun k => nsmallest 2
                   (map ct_rate (filter (fun r => ct_zipcode r =? k)
                      (filter is_second_lowest (with_counts (silver_rates zs ps))))));
      unfold group_keys.
    + apply last_rows_sorted. apply sorted_le_NoDup_lt; [apply sort_values_sorted|].
      apply sort_values_NoDup. apply (drop_duplicates_NoDup_id _ Z.eqb_eq).
    + apply sort_values_NoDup. apply (drop_duplicates_NoDup_id _ Z.eqb_eq).
  - apply Forall_forall. intros row H. unfold second_lowest_rows in H.
    apply in_map_iff in H. destruct H as (kr & <- & _). discriminate.
  - apply Forall_forall. intros row H. unfold no_lowest_df in H.
    apply in_map_iff in H. destruct H as (c & <- & _). reflexivity.
Qed.

Lemma X12_frame_order_witness :
  find_slcsp zips_ex plans_ex
    = Returns [ mkSlcspRow 11111 (Some 20000); mkSlcspRow 22222 None; mkSlcspRow 33333 None ]
  /\ exists with_rate without_rate,
       [ mkSlcspRow 11111 (Some 20000); mkSlcspRow 22222 None; mkSlcspRow 33333 None ]
       = with_rate ++ without_rate /\
       StronglySorted Z.lt (map zipcode with_rate) /\
       Forall (fun row => rate row <> None) with_rate /\
       Forall (fun row => rate row = None) without_rate.
Proof.
  assert (E : find_slcsp zips_ex plans_ex
              = Returns [ mkSlcspRow 11111 (Some 20000); mkSlcspRow 22222 None;
                          mkSlcspRow 33333 None ])
    by (vm_compute; reflexivity).
  split; [exact E|].
  exact (X12_frame_order zips_ex plans_ex _ E).
Defined.

(** X13: after the [drop_duplicates] of line 40 the candidate relation has
    the triples of the joined Silver frame, each once; hence a zip code with
    a single rating area has as many candidate rows as distinct rates, which
    is what makes the second of its two smallest rows the second-smallest
    distinct rate. *)
Theorem X13_candidates_deduplicated zs ps :
  NoDup (silver_rates zs ps) /\
  (forall r, In r (silver_rates zs ps) <->
             In r (drop_plan_columns
                     (silver_only (merge_on_rate_area (key_zips zs) (key_plans ps))))) /\
  (forall z, area_count z (silver_rates zs ps) = 1%nat ->
             List.length (group_of z (silver_rates zs ps))
             = rate_count z (silver_rates zs ps)).
Proof.
  split; [apply silver_rates_NoDup|]. split.
  - intros r. unfold silver_rates. apply (drop_duplicates_In _ same_triple_spec).
  - intros z Ha. unfold rate_count.
    rewrite (nunique_NoDup _ Z.eqb_eq).
    + now rewrite length_map.
    + apply (rates_of_NoDup z _ (silver_rates_NoDup zs ps) Ha).
Qed.

(** X14: [find_slcsp] raises [KeyError] at line 54 exactly when no zip code
    of the tables has a second lowest rate, that is, reaches Silver plans in
    one rating area only with two different rates there; in every other case
    it returns a frame, and [output_slcsp] raises and returns with it. *)
Theorem X14_raises_iff_no_second_lowest zs ps :
  (find_slcsp zs ps = Raises (KeyError "level_1")
   <-> ~ exists z a, has_second_lowest zs ps z a) /\
  ((exists frame, find_slcsp zs ps = Returns frame)
   <-> exists z a, has_second_lowest zs ps z a) /\
  (forall target,
     (output_slcsp target zs ps = Raises (KeyError "level_1")
      <-> ~ exists z a, has_second_lowest zs ps z a) /\
     ((exists out, output_slcsp target zs ps = Returns out)
      <-> exists z a, has_second_lowest zs ps z a)).
Proof.
  assert (Hyes : (exists z, determinable z (silver_rates zs ps))
                 <-> exists z a, has_second_lowest zs ps z a).
  { split; intros (z & H); exists z; now apply determinable_tables. }
  assert (Hno : (forall z, ~ determinable z (silver_rates zs ps))
                <-> ~ exists z a, has_second_lowest zs ps z a).
  { rewrite <- Hyes. split; [intros H (z & Hd); exact (H z Hd)|intros H z Hd; eauto]. }
  destruct (find_slcsp_cases zs ps) as [[Hd E]|[Hn E]].
  - pose proof Hd as (z & Hz). split; [|split; [|intros target; split]].
    + rewrite E. split; [discriminate|]. intros H. destruct H. now apply Hyes.
    + split; [intros _; now apply Hyes|intros _; eauto].
    + rewrite (output_slcsp_determinable target zs ps z Hz).
      split; [discriminate|]. intros H. destruct H. now apply Hyes.
    + rewrite (output_slcsp_determinable target zs ps z Hz).
      split; [intros _; now apply Hyes|intros _; eauto].
  - split; [|split; [|intros target; split]].
    + split; [intros _; now apply Hno|intros _; exact E].
    + rewrite E. split; [intros (f & H); discriminate|].
      intros H. apply Hno in Hn. contradiction.
    + split; [intros _; now apply Hno|intros _; now apply output_slcsp_none].
    + rewrite (output_slcsp_none target zs ps Hn).
      split; [intros (f & H); discriminate|].
      intros H. apply Hno in Hn. contradiction.
Qed.

(** X15: in a frame that [find_slcsp] returns, every zip code that reaches
    a Silver plan has a row, and the rate of that row, which is also the
    rate of every printed row of the zip code, is defined exactly when the
    zip code reaches Silver plans in one rating area only and those plans
    have two different rates. *)
Theorem X15_returned_rate_defined_iff zs ps frame z :
  find_slcsp zs ps = Returns frame ->
  (exists a, reaches_silver zs ps z a) ->
  (exists row, In row frame /\ zipcode row = z) /\
  (forall row, In row frame -> zipcode row = z ->
     (rate row <> None <-> exists a, has_second_lowest zs ps z a)) /\
  (forall target out row,
     output_slcsp target zs ps = Returns out -> In row out -> zipcode row = z ->
     (rate row <> None <-> exists a, has_second_lowest zs ps z a)).
Proof.
  intros Hf (a & Hreach). apply find_slcsp_Returns in Hf. destruct Hf as [-> _].
  assert (Hsel : selected_rate z (slcsp_frame zs ps) <> None
                 <-> exists a, has_second_lowest zs ps z a).
  { rewrite <- determinable_tables.
    destruct (determinable_dec z (silver_rates zs ps)) as [Hd|Hn].
    - destruct (selected_rate_determinable zs ps z Hd) as (r & -> & _).
      split; [auto|discriminate].
    - rewrite (selected_rate_not_determinable zs ps z Hn). split; [congruence|].
      intros Hd. contradiction. }
  split; [|split].
  - apply reaches_silver_row in Hreach. destruct Hreach as (x & Hx).
    assert (Hin : In z (map zipcode (slcsp_frame zs ps))).
    { apply slcsp_frame_keys. apply in_map_iff. exists (mkSilverRate z a x). auto. }
    apply in_map_iff in Hin. destruct Hin as (row & E & H). eauto.
  - intros [k o] H E. simpl in E. subst k. simpl.
    rewrite <- (selected_rate_In z o (slcsp_frame zs ps) (slcsp_frame_NoDup zs ps) H).
    exact Hsel.
  - intros target out row Hout Hrow E.
    apply output_slcsp_Returns in Hout. destruct Hout as [_ ->].
    apply in_map_iff in Hrow. destruct Hrow as (t & <- & _). simpl in *. subst z.
    exact Hsel.
Qed.

Lemma X15_returned_rate_defined_iff_witness :
  find_slcsp zips_ex plans_ex
    = Returns [ mkSlcspRow 11111 (Some 20000); mkSlcspRow 22222 None; mkSlcspRow 33333 None ]
  /\ (exists a, reaches_silver zips_ex plans_ex 22222 a)
  /\ ~ exists a, has_second_lowest zips_ex plans_ex 22222 a.
Proof.
  assert (E : find_slcsp zips_ex plans_ex
              = Returns [ mkSlcspRow 11111 (Some 20000); mkSlcspRow 22222 None;
                          mkSlcspRow 33333 None ])
    by (vm_compute; reflexivity).
  assert (Hreach : exists a, reaches_silver zips_ex plans_ex 22222 a).
  { exists "NY 1".
    exists (mkZipRow 22222 "NY" 36001 "Albany" 1), (mkPlanRow "P1" "NY" "Silver" 20000 1).
    repeat split; simpl; auto. }
  split; [exact E|]. split; [exact Hreach|].
  pose proof (proj1 (proj2 (X15_returned_rate_defined_iff zips_ex plans_ex _ 22222 E Hreach))
                (mkSlcspRow 22222 None)) as W.
  assert (Hin : In (mkSlcspRow 22222 None)
                  [ mkSlcspRow 11111 (Some 20000); mkSlcspRow 22222 None;
                    mkSlcspRow 33333 None ]) by (simpl; auto).
  destruct (W Hin eq_refl) as [_ W2]. intros H. now apply (W2 H).
Defined.

(** X16: a frame that [output_slcsp] prints has exactly one row per row of
    the target list, in the order of the target list and with its zip codes;
    the rate of a row is the one of the frame of [find_slcsp] for that zip
    code, and a requested zip code that is not in the zip table is printed
    with the missing value. *)
Theorem X16_printed_frame_keeps_target_rows target zs ps out :
  output_slcsp target zs ps = Returns out ->
  exists frame,
    find_slcsp zs ps = Returns frame /\
    out = map (fun t => mkSlcspRow (tr_zipcode t) (selected_rate (tr_zipcode t) frame)) target /\
    map zipcode out = map tr_zipcode target /\
    (forall t, In t target -> ~ In (tr_zipcode t) (map zr_zipcode zs) ->
               In (mkSlcspRow (tr_zipcode t) None) out).
Proof.
  intros H. apply output_slcsp_Returns in H. destruct H as [E ->].
  exists (slcsp_frame zs ps). split; [exact E|]. split; [reflexivity|].
  split; [now rewrite map_map|].
  intros t Ht Hz. apply in_map_iff. exists t. split; [|exact Ht]. f_equal.
  apply selected_rate_missing. rewrite slcsp_frame_keys.
  intros H. apply in_map_iff in H. destruct H as (r & Er & Hr).
  apply silver_rates_In in Hr. destruct Hr as (z & p & Hzin & _ & _ & _ & ->).
  simpl in Er. apply Hz. rewrite <- Er. now apply in_map.
Qed.

Lemma X16_printed_frame_keeps_target_rows_witness :
  exists out, output_slcsp target_ex zips_ex plans_ex = Returns out /\
              map zipcode out = map tr_zipcode target_ex /\
              In (mkSlcspRow 44444 None) out.
Proof.
  destruct (output_slcsp target_ex zips_ex plans_ex) as [out|e] eqn:E;
    [|vm_compute in E; discriminate E].
  exists out. split; [reflexivity|].
  destruct (X16_printed_frame_keeps_target_rows target_ex zips_ex plans_ex out E)
    as (frame & _ & _ & Hm & Hmiss).
  split; [exact Hm|].
  apply (Hmiss (mkTargetRow 44444 None)); [simpl; auto|].
  simpl. intros H. repeat destruct H as [H|H]; try discriminate H; exact H.
Defined.

(** X17: a zip code none of whose rating areas has a Silver plan is like a
    zip code that is not in the zip table: the outcome of [output_slcsp] is
    the same when its rows are removed from the zip table; it has no row in
    a frame that [find_slcsp] returns, and every printed row of it has the
    missing value. *)
Theorem X17_no_silver_plan_like_missing target zs ps z :
  (forall zr p, In zr zs -> zr_zipcode zr = z -> In p ps ->
     plan_area p = zip_area zr -> is_silver (pr_metal_level p) = false) ->
  output_slcsp target zs ps
    = output_slcsp target (filter (fun zr => negb (zr_zipcode zr =? z)) zs) ps /\
  (forall frame, find_slcsp zs ps = Returns frame -> ~ In z (map zipcode frame)) /\
  (forall out row, output_slcsp target zs ps = Returns out ->
     In row out -> zipcode row = z -> rate row = None).
Proof.
  intros H.
  assert (Hnot : ~ In z (map sr_zipcode (silver_rates zs ps))).
  { intros Hin. apply in_map_iff in Hin. destruct Hin as (r & E & Hr).
    apply silver_rates_In in Hr. destruct Hr as (zr & p & Hz & Hp & Ek & Hs & ->).
    simpl in E. unfold plan_area, zip_area in H.
    rewrite (H zr p Hz E Hp (eq_sym Ek)) in Hs. discriminate. }
  split; [|split].
  - apply output_slcsp_same_candidates. intros r. rewrite !silver_rates_In.
    split; intros (zr & p & Hz & Hp & Ek & Hs & ->).
    + exists zr, p. repeat split; auto. apply filter_In. split; [exact Hz|].
      destruct (zr_zipcode zr =? z) eqn:E; [|reflexivity].
      apply Z.eqb_eq in E. unfold plan_area, zip_area in H.
      rewrite (H zr p Hz E Hp (eq_sym Ek)) in Hs. discriminate.
    + apply filter_In in Hz. destruct Hz as [Hz _]. exists zr, p. auto.
  - intros frame Hf. apply find_slcsp_Returns in Hf. destruct Hf as [-> _].
    now rewrite slcsp_frame_keys.
  - intros out row Hout Hrow E.
    apply output_slcsp_Returns in Hout. destruct Hout as [_ ->].
    apply in_map_iff in Hrow. destruct Hrow as (t & <- & _). simpl in *. rewrite E.
    apply selected_rate_missing. now rewrite slcsp_frame_keys.
Qed.

Lemma X17_no_silver_plan_like_missing_witness :
  In 55555 (map zr_zipcode zips_ex) /\
  output_slcsp target_ex zips_ex plans_ex
    = output_slcsp target_ex (filter (fun zr => negb (zr_zipcode zr =? 55555)) zips_ex)
        plans_ex.
Proof.
  split; [simpl; tauto|].
  apply (X17_no_silver_plan_like_missing target_ex zips_ex plans_ex 55555).
  intros zr p Hz E Hp Ek. simpl in Hz, Hp.
  repeat match goal with
         | D : _ \/ _ |- _ => destruct D
         | D : False |- _ => destruct D
         end; subst; try discriminate E; try discriminate Ek; reflexivity.
Defined.
